(** * PDF Translator: the translation pipeline of [translatorv3.py]

    A shallow embedding of the four pipeline functions of the script,
    [extract_text_from_pdf], [translate_text], [create_translated_pdf] and
    the worker [process_translation], together with the properties the
    design document states about them.

    - Python strings are sequences of Unicode code points ([list N]).
    - A Python call either returns a value or raises an exception; the
      only thing the script ever reads from an exception is [str(e)], so an
      exception is its message.
    - The external collaborators (PyPDF2, pdf2image, pytesseract, Argos
      Translate, ReportLab, Tk) are oracles gathered in a record [World];
      every call to one of them is logged, in program order, in a trace of
      [event]s.  A computation is a pair of an outcome and the trace it
      produced, so the calls made before an exception are not forgotten.
    - Python evaluates [(i / num_pages) * 50] in binary64 arithmetic: the
      quotient of the two integers is rounded, and so is the product.  A
      float is the rational it denotes and the rounding is a function
      [float_round] of the world, of which the properties only use that it
      is monotone and leaves 0, 1 and 50 as they are.  [round_binary64] is
      the rounding to the nearest binary64 number, ties to even; it is the
      rounding of the sample worlds.
    - The worker runs in a thread of its own and reaches the window through
      [self.master.after(0, ...)].  A callable scheduled that way runs
      later, in the thread of Tk.  The callable of the failure handler
      reads the variable [e] of the worker when it runs, and Python unbinds
      [e] when the worker leaves the [except] block: which of the two comes
      first is not decided by the script, so it is an answer of the
      world, [error_box_in_time]. *)

From Stdlib Require Import List String Ascii NArith ZArith QArith Qround Qpower
  Bool Arith Lia Lqa Sorted.
Import ListNotations.
Local Open Scope list_scope.

Set Implicit Arguments.

(** ** Python strings *)

Module PyStr.

Definition char := N.
Definition str := list char.

(** A literal of the script, as code points. *)
Definition lit (s : string) : str := map N_of_ascii (list_ascii_of_string s).

Definition LF : char := 10%N.
Definition SP : char := 32%N.

Definition eqb (a b : str) : bool :=
  if list_eq_dec N.eq_dec a b then true else false.

(** [str.isspace] on one code point: the table of CPython's
    [_PyUnicode_IsWhitespace]. *)
Definition isspace (c : char) : bool :=
  (((9 <=? c) && (c <=? 13)) || ((28 <=? c) && (c <=? 32))
   || (c =? 133) || (c =? 160) || (c =? 5760)
   || ((8192 <=? c) && (c <=? 8202))
   || (c =? 8232) || (c =? 8233) || (c =? 8239) || (c =? 8287)
   || (c =? 12288))%N.

Fixpoint lstrip (s : str) : str :=
  match s with
  | [] => []
  | c :: s' => if isspace c then lstrip s' else s
  end.

Definition rstrip (s : str) : str := rev (lstrip (rev s)).

(** [s.strip()] *)
Definition strip (s : str) : str := rstrip (lstrip s).

(** Truth value of a string: non-empty. *)
Definition truthy (s : str) : bool :=
  match s with [] => false | _ :: _ => true end.

(** [s.replace(a, b)] for one-character [a] and [b]. *)
Definition replace (a b : char) (s : str) : str :=
  map (fun c => if (c =? a)%N then b else c) s.

Fixpoint starts_with (p s : str) : bool :=
  match p, s with
  | [], _ => true
  | _ :: _, [] => false
  | a :: p', b :: s' => (a =? b)%N && starts_with p' s'
  end.

(** [s.split(sep)] for a non-empty [sep]: the leftmost occurrences of
    [sep], not overlapping, cut [s]; [skip] counts the characters of an
    occurrence still to be passed over, [cur] is the piece being read,
    reversed. *)
Fixpoint split_from (sep : str) (skip : nat) (cur : str) (s : str)
  : list str :=
  match s with
  | [] => [rev cur]
  | c :: s' =>
      match skip with
      | S k => split_from sep k cur s'
      | O =>
          if starts_with sep s
          then rev cur :: split_from sep (List.length sep - 1) [] s'
          else split_from sep 0 (c :: cur) s'
      end
  end.

Definition split (sep : str) (s : str) : list str := split_from sep 0 [] s.

(** [str(n)] for a non-negative integer: its decimal digits. *)
Fixpoint digits (d : Decimal.uint) : str :=
  match d with
  | Decimal.Nil => []
  | Decimal.D0 d => 48%N :: digits d
  | Decimal.D1 d => 49%N :: digits d
  | Decimal.D2 d => 50%N :: digits d
  | Decimal.D3 d => 51%N :: digits d
  | Decimal.D4 d => 52%N :: digits d
  | Decimal.D5 d => 53%N :: digits d
  | Decimal.D6 d => 54%N :: digits d
  | Decimal.D7 d => 55%N :: digits d
  | Decimal.D8 d => 56%N :: digits d
  | Decimal.D9 d => 57%N :: digits d
  end.

Definition of_nat (n : nat) : str := digits (Nat.to_uint n).

(** [p in s] *)
Fixpoint contains (p s : str) : bool :=
  starts_with p s || match s with [] => false | _ :: s' => contains p s' end.

End PyStr.

Definition pystr : Type := PyStr.str.

(** ** Outcomes of a call *)

Inductive outcome (A : Type) : Type :=
| Returns (a : A)
| Raises (msg : pystr).

Arguments Returns {A} a.
Arguments Raises {A} msg.

(** ** ReportLab flowables, as the script constructs them *)

Inductive flowable : Type :=
| Paragraph (text : pystr)          (* Paragraph(text, styles["Normal"]) *)
| Spacer (width height : nat).      (* Spacer(width, height) *)

(** Widgets the worker reconfigures, and the two states it sets. *)
Inductive widget := translate_button | save_button | prev_trans_button | next_trans_button.
Inductive widget_state := NORMAL | DISABLED.

Section Pipeline.

(** Values of the collaborators: a rasterized page, an installed
    language, a translation between two languages. *)
Variables Image Language Translation : Type.

(** [lang.code] *)
Variable code : Language -> pystr.

(** A page of [reader.pages]; [extract_text] may raise, return [None] or
    return a string. *)
Record Page : Type := { extract_text : outcome (option pystr) }.

Record World : Type := {
  (* open(pdf_path, 'rb'), PyPDF2.PdfReader(file), reader.pages *)
  open_pdf : pystr -> outcome (list Page);
  (* convert_from_path(pdf_path, dpi=, first_page=, last_page=) *)
  convert_from_path : pystr -> nat -> nat -> nat -> outcome (list Image);
  (* pytesseract.image_to_string(image) *)
  image_to_string : Image -> outcome pystr;
  (* translate.get_installed_languages() *)
  get_installed_languages : outcome (list Language);
  (* from_lang_obj.get_translation(to_lang_obj) *)
  get_translation : Language -> Language -> outcome (option Translation);
  (* translation.translate(text) *)
  translate : Translation -> pystr -> outcome pystr;
  (* SimpleDocTemplate(output_pdf_path, pagesize=letter).build(story),
     with the construction of the flowables of the story *)
  build : pystr -> list flowable -> outcome unit;
  (* open(output_pdf_path, 'rb'), len(PyPDF2.PdfReader(f).pages) *)
  read_page_count : pystr -> outcome nat;
  (* rounding of a real result to the nearest binary64 number *)
  float_round : Q -> Q;
  (* whether Tk runs the callable scheduled by the failure handler while
     the worker is still inside the except block, where e is bound *)
  error_box_in_time : bool
}.

(** Calls to the collaborators and to the user interface, and writes to
    the attributes of the application object.  The worker reaches the user
    interface through [self.master.after(0, ...)]: such an event stands for
    the scheduling of the call, at the point where the worker makes it. *)
Inductive event : Type :=
| EOpen (pdf_path : pystr)
| EExtractText (page_number : nat)
| EConvertFromPath (pdf_path : pystr) (dpi first_page last_page : nat)
| EImageToString (image : Image)
| EGetInstalledLanguages
| EGetTranslation (from_lang to_lang : Language)
| ETranslate (translation : Translation) (text : pystr)
| EBuild (output_pdf_path : pystr) (story : list flowable)
| EProgress (value : Q)                       (* progress_bar.config(value=) *)
| EShowError (message : pystr)                (* messagebox.showerror("Error", ) *)
| ECallbackNameError                          (* the error callable finds e unbound *)
| EShowInfo (message : pystr)                 (* messagebox.showinfo("Success", ) *)
| EReadOutput (output_pdf_path : pystr)       (* page count of the output *)
| EAssignTranslatedTotalPages (n : nat)       (* self.translated_total_pages = *)
| EAssignTranslatedCurrentPage (n : nat)      (* self.translated_current_page = *)
| EDisplayTranslatedPreview (page : nat)
| EConfig (w : widget) (s : widget_state).

(** ** Computations: an outcome and the trace of calls made *)

Definition M (A : Type) : Type := (outcome A * list event)%type.

Definition ret {A} (a : A) : M A := (Returns a, []).
Definition raise {A} (msg : pystr) : M A := (Raises msg, []).

Definition bind {A B} (m : M A) (f : A -> M B) : M B :=
  match m with
  | (Returns a, tr) => let (r, tr') := f a in (r, tr ++ tr')
  | (Raises msg, tr) => (Raises msg, tr)
  end.

(** [try: m  except Exception as e: h str(e)] *)
Definition try_except {A} (m : M A) (h : pystr -> M A) : M A :=
  match m with
  | (Returns a, tr) => (Returns a, tr)
  | (Raises msg, tr) => let (r, tr') := h msg in (r, tr ++ tr')
  end.

(** A call to a collaborator: logged, with the outcome the world gives. *)
Definition call {A} (e : event) (o : outcome A) : M A := (o, [e]).

Definition emit (e : event) : M unit := (Returns tt, [e]).

Notation "x <- m ;; k" := (bind m (fun x => k))
  (at level 100, m at next level, right associativity).
Notation "m ;;; k" := (bind m (fun _ => k))
  (at level 100, right associativity).

Variable w : World.

(** ** [update_progress]

    [self.master.after(0, lambda: self.progress_bar.config(value=value))] *)
Definition update_progress (value : Q) : M unit := emit (EProgress value).

(** ** [extract_text_from_pdf] *)

Definition ocr_error_prefix : pystr := PyStr.lit "Error during OCR on page ".
Definition extract_error_prefix : pystr := PyStr.lit "Error extracting text from PDF: ".
Definition no_text_message : pystr := PyStr.lit "No text could be extracted from the PDF.".

(** [page_text and page_text.strip()] *)
Definition has_text (page_text : option pystr) : bool :=
  match page_text with
  | None => false
  | Some t => PyStr.truthy t && PyStr.truthy (PyStr.strip t)
  end.

(** [(i / num_pages) * 50]: a true division of integers, then a product
    of floats. *)
Definition progress_value (i num_pages : nat) : Q :=
  float_round w
    (float_round w (inject_Z (Z.of_nat i) / inject_Z (Z.of_nat num_pages)) * 50).

(** [if progress_callback: progress_callback(value)] *)
Definition if_callback (progress_callback : option (Q -> M unit)) (value : Q)
  : M unit :=
  match progress_callback with
  | Some f => f value
  | None => ret tt
  end.

(** The callback comes back without raising, whatever it is given. *)
Definition callback_returns (progress_callback : option (Q -> M unit)) : Prop :=
  forall value, fst (if_callback progress_callback value) = Returns tt.

(** The [else] branch of the loop body: the inner [try ... except]. *)
Definition ocr_fallback (pdf_path : pystr) (i : nat) (text : pystr) : M pystr :=
  try_except
    (images <- call (EConvertFromPath pdf_path 200 i i)
                    (convert_from_path w pdf_path 200 i i) ;;
     match images with
     | image0 :: _ =>
         ocr_text <- call (EImageToString image0) (image_to_string w image0) ;;
         ret (text ++ ocr_text ++ [PyStr.LF])
     | [] => ret text
     end)
    (fun ocr_e =>
       raise (ocr_error_prefix ++ PyStr.of_nat i ++ PyStr.lit ": " ++ ocr_e)).

(** One iteration of [for i, page in enumerate(reader.pages, start=1)];
    the value is the new [text]. *)
Definition page_body (pdf_path : pystr) (progress_callback : option (Q -> M unit))
           (num_pages i : nat) (page : Page) (text : pystr) : M pystr :=
  page_text <- call (EExtractText i) (extract_text page) ;;
  text' <- (if has_text page_text
            then ret (text ++ match page_text with Some t => t | None => [] end
                           ++ [PyStr.LF])
            else ocr_fallback pdf_path i text) ;;
  if_callback progress_callback (progress_value i num_pages) ;;;
  ret text'.

Fixpoint page_loop (pdf_path : pystr) (progress_callback : option (Q -> M unit))
         (num_pages i : nat) (pages : list Page) (text : pystr) : M pystr :=
  match pages with
  | [] => ret text
  | page :: rest =>
      text' <- page_body pdf_path progress_callback num_pages i page text ;;
      page_loop pdf_path progress_callback num_pages (S i) rest text'
  end.

Definition extract_text_from_pdf (pdf_path : pystr)
           (progress_callback : option (Q -> M unit)) : M pystr :=
  text <- try_except
            (pages <- call (EOpen pdf_path) (open_pdf w pdf_path) ;;
             page_loop pdf_path progress_callback (List.length pages) 1 pages [])
            (fun e => raise (extract_error_prefix ++ e)) ;;
  if PyStr.truthy (PyStr.strip text) then ret text
  else raise no_text_message.

(** ** [translate_text] *)

Definition not_installed_message : pystr :=
  PyStr.lit "Translation packages for the selected language pair are not installed.".
Definition translation_error_prefix : pystr := PyStr.lit "Error during translation: ".
(** [str(e)] of the [AttributeError] of [None.translate]. *)
Definition none_translate_message : pystr :=
  PyStr.lit "'NoneType' object has no attribute 'translate'".

(** One iteration of [for lang in installed_languages], on the pair
    [(from_lang_obj, to_lang_obj)]. *)
Definition lookup_step (from_lang_code to_lang_code : pystr)
           (objs : option Language * option Language) (lang : Language)
  : option Language * option Language :=
  let objs1 := if PyStr.eqb (code lang) from_lang_code
               then (Some lang, snd objs) else objs in
  if PyStr.eqb (code lang) to_lang_code
  then (fst objs1, Some lang) else objs1.

Definition lookup_languages (from_lang_code to_lang_code : pystr)
           (installed_languages : list Language)
  : option Language * option Language :=
  fold_left (lookup_step from_lang_code to_lang_code) installed_languages
            (None, None).

Definition translate_text (text from_lang_code to_lang_code : pystr) : M pystr :=
  try_except
    (installed_languages <- call EGetInstalledLanguages (get_installed_languages w) ;;
     match lookup_languages from_lang_code to_lang_code installed_languages with
     | (Some from_lang_obj, Some to_lang_obj) =>
         translation <- call (EGetTranslation from_lang_obj to_lang_obj)
                             (get_translation w from_lang_obj to_lang_obj) ;;
         match translation with
         | Some tr => call (ETranslate tr text) (translate w tr text)
         | None => raise none_translate_message
         end
     | _ => raise not_installed_message
     end)
    (fun e => raise (translation_error_prefix ++ e)).

(** ** [create_translated_pdf] *)

Definition render_error_prefix : pystr := PyStr.lit "Error creating translated PDF: ".

(** One iteration of [for para in paragraphs], on [story]. *)
Definition story_step (story : list flowable) (para : pystr) : list flowable :=
  let para := PyStr.replace PyStr.LF PyStr.SP para in
  if PyStr.truthy (PyStr.strip para)
  then (story ++ [Paragraph (PyStr.strip para)]) ++ [Spacer 1 12]
  else story.

Definition make_story (text : pystr) : list flowable :=
  let paragraphs := PyStr.split [PyStr.LF; PyStr.LF] text in
  fold_left story_step paragraphs [].

Definition create_translated_pdf (text output_pdf_path : pystr) : M unit :=
  try_except
    (call (EBuild output_pdf_path (make_story text))
          (build w output_pdf_path (make_story text)))
    (fun e => raise (render_error_prefix ++ e)).

(** ** [process_translation], the worker of [translate_pdf] *)

(** [try: m  finally: f], for an [f] that does not raise. *)
Definition try_finally {A} (m : M A) (f : list event) : M A :=
  (fst m, snd m ++ f).

Definition after_success (output_pdf_path : pystr) : M unit :=
  emit (EShowInfo (PyStr.lit "Translated PDF saved as " ++ output_pdf_path)) ;;;
  total <- try_except
             (n <- call (EReadOutput output_pdf_path)
                        (read_page_count w output_pdf_path) ;;
              emit (EAssignTranslatedTotalPages n) ;;;
              ret n)
             (fun _ => emit (EAssignTranslatedTotalPages 1) ;;; ret 1%nat) ;;
  emit (EAssignTranslatedCurrentPage 1) ;;;
  emit (EDisplayTranslatedPreview 1) ;;;
  (if (1 <? total)%nat
   then emit (EConfig prev_trans_button NORMAL) ;;;
        emit (EConfig next_trans_button NORMAL)
   else emit (EConfig prev_trans_button DISABLED) ;;;
        emit (EConfig next_trans_button DISABLED)) ;;;
  emit (EConfig save_button NORMAL).

(** [lambda: messagebox.showerror("Error", str(e))] when Tk runs it, on
    what the variable [e] of the worker holds at that moment: the message of
    the exception, or nothing once the worker has left the [except] block.
    In the second case reading [e] raises a [NameError] inside the
    callable and no box is shown. *)
Definition show_error_callback (e : option pystr) : event :=
  match e with
  | Some message => EShowError message
  | None => ECallbackNameError
  end.

(** The event of the failure handler stands for the callable it schedules
    and for what the callable does when Tk runs it. *)
Definition process_translation
           (input_pdf_path source_lang target_lang output_pdf_path : pystr)
  : M unit :=
  try_finally
    (try_except
       (extracted_text <- extract_text_from_pdf input_pdf_path
                                                (Some update_progress) ;;
        update_progress 50 ;;;
        translated_text <- translate_text extracted_text source_lang target_lang ;;
        update_progress 75 ;;;
        create_translated_pdf translated_text output_pdf_path ;;;
        update_progress 100 ;;;
        after_success output_pdf_path)
       (fun e =>
          emit (show_error_callback
                  (if error_box_in_time w then Some e else None)) ;;;
          update_progress 0))
    [EConfig translate_button NORMAL].

End Pipeline.

Arguments ret {Image Language Translation A} a.
Arguments raise {Image Language Translation A} msg.
Arguments emit {Image Language Translation} e.
Arguments update_progress {Image Language Translation} value.
Arguments EOpen {Image Language Translation}.
Arguments EExtractText {Image Language Translation}.
Arguments EConvertFromPath {Image Language Translation}.
Arguments EImageToString {Image Language Translation}.
Arguments EGetInstalledLanguages {Image Language Translation}.
Arguments EGetTranslation {Image Language Translation}.
Arguments ETranslate {Image Language Translation}.
Arguments EBuild {Image Language Translation}.
Arguments EProgress {Image Language Translation}.
Arguments EShowError {Image Language Translation}.
Arguments ECallbackNameError {Image Language Translation}.
Arguments EShowInfo {Image Language Translation}.
Arguments EReadOutput {Image Language Translation}.
Arguments EAssignTranslatedTotalPages {Image Language Translation}.
Arguments EAssignTranslatedCurrentPage {Image Language Translation}.
Arguments EDisplayTranslatedPreview {Image Language Translation}.
Arguments EConfig {Image Language Translation}.

(** ** Reading a trace *)

Section Traces.

Variables Image Language Translation : Type.

(** Rasterization and recognition calls. *)
Definition is_ocr_event (e : event Image Language Translation) : bool :=
  match e with
  | EConvertFromPath _ _ _ _ | EImageToString _ => true
  | _ => false
  end.

(** Calls that ask the translation runtime for a translation or run one. *)
Definition is_translation_call (e : event Image Language Translation) : bool :=
  match e with
  | EGetTranslation _ _ | ETranslate _ _ => true
  | _ => false
  end.

(** The values handed to the progress bar, in order. *)
Definition reported (tr : list (event Image Language Translation)) : list Q :=
  flat_map (fun e => match e with EProgress v => [v] | _ => [] end) tr.

(** The page starts and the progress reports of a trace, in order. *)
Definition page_marks (tr : list (event Image Language Translation))
  : list (event Image Language Translation) :=
  filter (fun e => match e with
                   | EExtractText _ | EProgress _ => true
                   | _ => false
                   end) tr.

(** The marks of [k] pages gone through from page [i] on, out of
    [num_pages]: each page start followed by the page's report. *)
Definition marks_of (w : World Image Language Translation) (num_pages i k : nat)
  : list (event Image Language Translation) :=
  flat_map (fun j => [EExtractText j; EProgress (progress_value w j num_pages)])
           (seq i k).

(** What the properties ask of the rounding: it keeps the order, and 0, 1
    and 50 are floats. *)
Definition sound_rounding (round : Q -> Q) : Prop :=
  (forall x y, x <= y -> round x <= round y)
  /\ round 0 == 0 /\ round 1 == 1 /\ round 50 == 50.

End Traces.

(** ** Binary64 rounding

    The floats of CPython are IEEE 754 binary64 numbers and its arithmetic
    rounds to nearest, ties to even.  A positive rational [q] lies in one
    binade, [2^e <= q < 2^(e+1)]; the floats of that binade are the
    multiples of [2^(e-52)], so [q] is rounded by rounding [q / 2^(e-52)]
    to an integer.  Overflow and subnormal numbers are left out: the
    quotients and products of the script lie between [2^(-1022)] and
    [2^1024] for every page count a document can have. *)

(** The nearest integer, the even one of the two on a tie. *)
Definition round_half_even (m : Q) : Z :=
  let f := Qfloor m in
  match ((m - inject_Z f) ?= (1 # 2))%Q with
  | Lt => f
  | Gt => (f + 1)%Z
  | Eq => if Z.even f then f else (f + 1)%Z
  end.

(** The exponent [e] with [2^e <= q < 2^(e+1)], for a positive [q]. *)
Definition binade (q : Q) : Z :=
  let e0 := (Z.log2 (Qnum q) - Z.log2 (Zpos (Qden q)))%Z in
  if Qle_bool (2 ^ e0)%Q q then e0 else (e0 - 1)%Z.

Definition round_positive (q : Q) : Q :=
  let e := binade q in
  inject_Z (round_half_even (q * 2 ^ (52 - e))) * 2 ^ (e - 52).

Definition round_binary64 (q : Q) : Q :=
  match q ?= 0 with
  | Eq => 0
  | Gt => round_positive q
  | Lt => - round_positive (- q)
  end.

(** ** The rendering algorithm in the words of the design document

    Split on double line breaks, turn the line breaks left inside a
    candidate into spaces, drop the candidates that are blank after
    trimming, and emit each survivor, trimmed, as one paragraph followed by
    the fixed spacer. *)

Definition paragraph_candidates (text : pystr) : list pystr :=
  map (PyStr.replace PyStr.LF PyStr.SP) (PyStr.split [PyStr.LF; PyStr.LF] text).

Definition surviving_paragraphs (text : pystr) : list pystr :=
  map PyStr.strip
      (filter (fun c => PyStr.truthy (PyStr.strip c)) (paragraph_candidates text)).

Definition story_of_paragraphs (ps : list pystr) : list flowable :=
  flat_map (fun p => [Paragraph p; Spacer 1 12]) ps.

(** A string is blank when it is empty or made of whitespace only. *)
Definition blank (s : pystr) : Prop := Forall (fun c => PyStr.isspace c = true) s.

(** ** The acquisition policy as first worded

    The iteration on page [i] obtains a text [t] for the page, appended with
    its line break, and [t] is either the non-blank extracted text or the
    text recognized on the first image of the rasterized page. *)
Definition page_text_obtained {Image Language Translation : Type}
           (w : World Image Language Translation) (pdf_path : pystr)
           (progress_callback : option (Q -> M Image Language Translation unit))
           (num_pages i : nat) (page : Page) (text : pystr) : Prop :=
  exists t,
    fst (page_body w pdf_path progress_callback num_pages i page text)
    = Returns (text ++ t ++ [PyStr.LF])
    /\ ((extract_text page = Returns (Some t) /\ ~ blank t)
        \/ (exists image0 rest,
               convert_from_path w pdf_path 200 i i = Returns (image0 :: rest)
               /\ image_to_string w image0 = Returns t)).

(** ** Sample worlds

    Images and translations are numbered, a language is its code.  The
    floats are rounded as CPython rounds them, and Tk runs the error
    callable in time unless the world says otherwise. *)

Definition page_of (o : outcome (option pystr)) : Page := {| extract_text := o |}.

Definition sample_world
           (pages : list Page)
           (raster : nat -> outcome (list nat))
           (ocr : nat -> outcome pystr)
           (langs : list pystr)
           (path : pystr -> pystr -> outcome (option nat))
           (run : nat -> pystr -> outcome pystr)
  : World nat pystr nat :=
  {| open_pdf := fun _ => Returns pages;
     convert_from_path := fun _ _ first_page _ => raster first_page;
     image_to_string := ocr;
     get_installed_languages := Returns langs;
     get_translation := path;
     translate := run;
     build := fun _ _ => Returns tt;
     read_page_count := fun _ => Returns 1%nat;
     float_round := round_binary64;
     error_box_in_time := true |}.

(** The same world in a run where Tk gets to the error callable only after
    the worker has left the [except] block. *)
Definition late_error_box {Image Language Translation : Type}
           (w : World Image Language Translation)
  : World Image Language Translation :=
  {| open_pdf := open_pdf w;
     convert_from_path := convert_from_path w;
     image_to_string := image_to_string w;
     get_installed_languages := get_installed_languages w;
     get_translation := get_translation w;
     translate := translate w;
     build := build w;
     read_page_count := read_page_count w;
     float_round := float_round w;
     error_box_in_time := false |}.

Definition sample_code (l : pystr) : pystr := l.

(** A scanned page (no embedded text) whose rasterization yields no image. *)
Definition world_empty_raster : World nat pystr nat :=
  sample_world [page_of (Returns (Some []))]
               (fun _ => Returns [])
               (fun _ => Returns (PyStr.lit "Hola"))
               [] (fun _ _ => Returns None) (fun _ t => Returns t).

(** Page 1 has text, page 2 is scanned and its rasterization fails. *)
Definition world_ocr_fails : World nat pystr nat :=
  sample_world [page_of (Returns (Some (PyStr.lit "A"))); page_of (Returns None)]
               (fun _ => Raises (PyStr.lit "poppler missing"))
               (fun _ => Returns (PyStr.lit "Hola"))
               [] (fun _ _ => Returns None) (fun _ t => Returns t).

(** One scanned page on which recognition finds only a space. *)
Definition world_blank : World nat pystr nat :=
  sample_world [page_of (Returns None)]
               (fun _ => Returns [0%nat])
               (fun _ => Returns (PyStr.lit " "))
               [] (fun _ _ => Returns None) (fun _ t => Returns t).

(** The same scanned page, with the error callable run late. *)
Definition world_blank_late : World nat pystr nat := late_error_box world_blank.

(** Three pages; page 2 is scanned and reads "Hola". *)
Definition world_three_pages : World nat pystr nat :=
  sample_world [page_of (Returns (Some (PyStr.lit "Uno")));
                page_of (Returns (Some []));
                page_of (Returns (Some (PyStr.lit "Tres")))]
               (fun _ => Returns [2%nat])
               (fun _ => Returns (PyStr.lit "Hola"))
               [PyStr.lit "es"; PyStr.lit "en"]
               (fun _ _ => Returns (Some 0%nat))
               (fun _ t => Returns t).

(** Two pages with embedded text. *)
Definition world_all_direct : World nat pystr nat :=
  sample_world [page_of (Returns (Some (PyStr.lit "Uno")));
                page_of (Returns (Some (PyStr.lit "Dos")))]
               (fun _ => Returns [2%nat])
               (fun _ => Returns (PyStr.lit "Hola"))
               [] (fun _ _ => Returns None) (fun _ t => Returns t).

(** English and Korean are installed, with no translation between them. *)
Definition world_no_path : World nat pystr nat :=
  sample_world [] (fun _ => Returns []) (fun _ => Returns [])
               [PyStr.lit "en"; PyStr.lit "ko"]
               (fun _ _ => Returns None) (fun _ t => Returns t).

(** English and Korean are installed with a translation, and the runtime
    fails while translating. *)
Definition world_runtime_failure : World nat pystr nat :=
  sample_world [] (fun _ => Returns []) (fun _ => Returns [])
               [PyStr.lit "en"; PyStr.lit "ko"]
               (fun _ _ => Returns (Some 0%nat))
               (fun _ _ => Raises (PyStr.lit "'NoneType' object has no attribute 'translate'")).

(** ** Readings of the pipeline *)

Section PipelineReadings.

Variables Image Language Translation : Type.
Variable code : Language -> pystr.
Variable w : World Image Language Translation.

(** What page [i] adds to the text in an iteration that comes to its end:
    its extracted text, or the text recognized on the first image, with a
    line break; nothing when the rasterization has no image. *)
Definition page_contribution (pdf_path : pystr) (i : nat) (page : Page) : pystr :=
  match extract_text page with
  | Returns r =>
      if has_text r
      then match r with Some t => t | None => [] end ++ [PyStr.LF]
      else match convert_from_path w pdf_path 200 i i with
           | Returns (image0 :: _) =>
               match image_to_string w image0 with
               | Returns ocr_text => ocr_text ++ [PyStr.LF]
               | Raises _ => []
               end
           | _ => []
           end
  | Raises _ => []
  end.

Fixpoint contributions (pdf_path : pystr) (i : nat) (pages : list Page) : pystr :=
  match pages with
  | [] => []
  | page :: rest =>
      page_contribution pdf_path i page ++ contributions pdf_path (S i) rest
  end.

(** Page [i] goes through: its extraction returns and, when the result is
    absent or blank, so does its rasterization and, if there is an image,
    the recognition on the first one. *)
Definition page_goes_through (pdf_path : pystr) (i : nat) (page : Page) : bool :=
  match extract_text page with
  | Returns r =>
      has_text r
      || match convert_from_path w pdf_path 200 i i with
         | Returns (image0 :: _) =>
             match image_to_string w image0 with
             | Returns _ => true
             | Raises _ => false
             end
         | Returns [] => true
         | Raises _ => false
         end
  | Raises _ => false
  end.

(** The number of pages that go through before the first one that does
    not, counting from page [i]. *)
Fixpoint pages_gone_through (pdf_path : pystr) (i : nat) (pages : list Page) : nat :=
  match pages with
  | [] => 0
  | page :: rest =>
      if page_goes_through pdf_path i page
      then S (pages_gone_through pdf_path (S i) rest)
      else 0
  end.

(** The three stages of a run of the worker all return. *)
Definition run_succeeds
           (input_pdf_path source_lang target_lang output_pdf_path : pystr) : bool :=
  match fst (extract_text_from_pdf w input_pdf_path (Some update_progress)) with
  | Returns extracted_text =>
      match fst (translate_text code w extracted_text source_lang target_lang) with
      | Returns translated_text =>
          match fst (create_translated_pdf w translated_text output_pdf_path) with
          | Returns _ => true
          | Raises _ => false
          end
      | Raises _ => false
      end
  | Raises _ => false
  end.

(** What the worker does to the window besides the progress bar: message
    boxes, attribute writes, preview and widget states. *)
Definition is_shell_event (e : event Image Language Translation) : bool :=
  match e with
  | EShowError _ | ECallbackNameError | EShowInfo _ | EReadOutput _
  | EAssignTranslatedTotalPages _ | EAssignTranslatedCurrentPage _
  | EDisplayTranslatedPreview _ | EConfig _ _ => true
  | _ => false
  end.

(** The messages of the error boxes of a trace. *)
Definition error_boxes (tr : list (event Image Language Translation)) : list pystr :=
  flat_map (fun e => match e with EShowError m => [m] | _ => [] end) tr.

(** What the worker schedules that can put a message box on the screen:
    the two kinds of box, the error callable that finds [e] unbound, and
    the preview of the translated document, which shows an error box of its
    own when it fails. *)
Definition is_report_event (e : event Image Language Translation) : bool :=
  match e with
  | EShowError _ | ECallbackNameError | EShowInfo _
  | EDisplayTranslatedPreview _ => true
  | _ => false
  end.

Definition reports (tr : list (event Image Language Translation))
  : list (event Image Language Translation) :=
  filter is_report_event tr.

End PipelineReadings.

(** [sep.join(pieces)] *)
Fixpoint str_join (sep : pystr) (pieces : list pystr) : pystr :=
  match pieces with
  | [] => []
  | p :: rest =>
      match rest with
      | [] => p
      | _ :: _ => p ++ sep ++ str_join sep rest
      end
  end.

(** The characters of a string that are not whitespace. *)
Definition non_space (s : pystr) : pystr :=
  filter (fun c => negb (PyStr.isspace c)) s.

(** The texts of the paragraphs of a story, in order. *)
Definition paragraph_texts (story : list flowable) : list pystr :=
  flat_map (fun f => match f with Paragraph t => [t] | Spacer _ _ => [] end) story.


(** ** The window: previews, file selection and page navigation

    The attributes of [PDFTranslatorApp] the methods below read and write
    form the record [App].  [input_pdf_path] is [None] until a file is
    selected and never the empty string afterwards; the empty string stands
    for [None], both being false in a test.  The methods catch every
    exception, so a method is a function from the attributes to the new
    attributes and the calls it made. *)

Section Shell.

Variables Image Language Translation : Type.
Variable w : World Image Language Translation.

Definition preview_error_prefix : pystr := PyStr.lit "Error generating preview image: ".
Definition no_pages_message : pystr := PyStr.lit "No pages found in PDF.".

(** [get_pdf_preview_image(pdf_path, page_number)] *)
Definition get_pdf_preview_image (pdf_path : pystr) (page_number : nat)
  : M Image Language Translation Image :=
  try_except
    (bind (call (EConvertFromPath pdf_path 100 page_number page_number)
                (convert_from_path w pdf_path 100 page_number page_number))
          (fun images =>
             match images with
             | image0 :: _ => ret image0
             | [] => raise no_pages_message
             end))
    (fun e => raise (preview_error_prefix ++ e)).

Inductive panel := original_panel | translated_panel.
Inductive nav_button := prev_orig_button | next_orig_button.

Inductive shell_event : Type :=
| SCall (e : event Image Language Translation)
| SDraw (p : panel) (image : Image)
      (* image_tk = ImageTk.PhotoImage(img); canvas.delete("all");
         canvas.create_image(0, 0, anchor="nw", image=image_tk) *)
| SPageLabel (p : panel) (text : pystr)      (* page_label.config(text=) *)
| SFileLabel (text : pystr)                  (* pdf_label.config(text=) *)
| SNavConfig (b : nav_button) (s : widget_state).

Record App : Type := {
  input_pdf_path : pystr;
  output_pdf_path : pystr;
  original_current_page : nat;
  original_total_pages : nat;
  translated_current_page : nat;
  translated_total_pages : nat;
  original_image_tk : option Image;
  translated_image_tk : option Image
}.

(** The attributes after [__init__]. *)
Definition initial_app : App :=
  {| input_pdf_path := [];
     output_pdf_path := PyStr.lit "translated.pdf";
     original_current_page := 1;
     original_total_pages := 0;
     translated_current_page := 1;
     translated_total_pages := 0;
     original_image_tk := None;
     translated_image_tk := None |}.

Definition set_input_pdf_path (v : pystr) (a : App) : App :=
  {| input_pdf_path := v;
     output_pdf_path := output_pdf_path a;
     original_current_page := original_current_page a;
     original_total_pages := original_total_pages a;
     translated_current_page := translated_current_page a;
     translated_total_pages := translated_total_pages a;
     original_image_tk := original_image_tk a;
     translated_image_tk := translated_image_tk a |}.

Definition set_original_current_page (v : nat) (a : App) : App :=
  {| input_pdf_path := input_pdf_path a;
     output_pdf_path := output_pdf_path a;
     original_current_page := v;
     original_total_pages := original_total_pages a;
     translated_current_page := translated_current_page a;
     translated_total_pages := translated_total_pages a;
     original_image_tk := original_image_tk a;
     translated_image_tk := translated_image_tk a |}.

Definition set_original_total_pages (v : nat) (a : App) : App :=
  {| input_pdf_path := input_pdf_path a;
     output_pdf_path := output_pdf_path a;
     original_current_page := original_current_page a;
     original_total_pages := v;
     translated_current_page := translated_current_page a;
     translated_total_pages := translated_total_pages a;
     original_image_tk := original_image_tk a;
     translated_image_tk := translated_image_tk a |}.

Definition set_translated_current_page (v : nat) (a : App) : App :=
  {| input_pdf_path := input_pdf_path a;
     output_pdf_path := output_pdf_path a;
     original_current_page := original_current_page a;
     original_total_pages := original_total_pages a;
     translated_current_page := v;
     translated_total_pages := translated_total_pages a;
     original_image_tk := original_image_tk a;
     translated_image_tk := translated_image_tk a |}.

Definition set_original_image_tk (v : option Image) (a : App) : App :=
  {| input_pdf_path := input_pdf_path a;
     output_pdf_path := output_pdf_path a;
     original_current_page := original_current_page a;
     original_total_pages := original_total_pages a;
     translated_current_page := translated_current_page a;
     translated_total_pages := translated_total_pages a;
     original_image_tk := v;
     translated_image_tk := translated_image_tk a |}.

Definition set_translated_image_tk (v : option Image) (a : App) : App :=
  {| input_pdf_path := input_pdf_path a;
     output_pdf_path := output_pdf_path a;
     original_current_page := original_current_page a;
     original_total_pages := original_total_pages a;
     translated_current_page := translated_current_page a;
     translated_total_pages := translated_total_pages a;
     original_image_tk := original_image_tk a;
     translated_image_tk := v |}.

(** [f"Page {page} of {total}"] *)
Definition page_label_text (page total : nat) : pystr :=
  PyStr.lit "Page " ++ PyStr.of_nat page ++ PyStr.lit " of " ++ PyStr.of_nat total.

(** [display_original_preview(self, page)] *)
Definition display_original_preview (a : App) (page : nat)
  : App * list shell_event :=
  match get_pdf_preview_image (input_pdf_path a) page with
  | (Returns img, tr) =>
      (set_original_image_tk (Some img) a,
       map SCall tr
         ++ [SDraw original_panel img;
             SPageLabel original_panel
                        (page_label_text page (original_total_pages a))])
  | (Raises e, tr) =>
      (a, map SCall tr ++ [SCall (EShowError (PyStr.lit "Original preview: " ++ e))])
  end.

(** [display_translated_preview(self, page)] *)
Definition display_translated_preview (a : App) (page : nat)
  : App * list shell_event :=
  match get_pdf_preview_image (output_pdf_path a) page with
  | (Returns img, tr) =>
      (set_translated_image_tk (Some img) a,
       map SCall tr
         ++ [SDraw translated_panel img;
             SPageLabel translated_panel
                        (page_label_text page (translated_total_pages a))])
  | (Raises e, tr) =>
      (a, map SCall tr
            ++ [SCall (EShowError (PyStr.lit "Translated preview: " ++ e))])
  end.

Definition prev_original_page (a : App) : App * list shell_event :=
  if (1 <? original_current_page a)%nat
  then let a' := set_original_current_page (original_current_page a - 1) a in
       display_original_preview a' (original_current_page a')
  else (a, []).

Definition next_original_page (a : App) : App * list shell_event :=
  if (original_current_page a <? original_total_pages a)%nat
  then let a' := set_original_current_page (original_current_page a + 1) a in
       display_original_preview a' (original_current_page a')
  else (a, []).

Definition prev_translated_page (a : App) : App * list shell_event :=
  if (1 <? translated_current_page a)%nat
  then let a' := set_translated_current_page (translated_current_page a - 1) a in
       display_translated_preview a' (translated_current_page a')
  else (a, []).

Definition next_translated_page (a : App) : App * list shell_event :=
  if (translated_current_page a <? translated_total_pages a)%nat
  then let a' := set_translated_current_page (translated_current_page a + 1) a in
       display_translated_preview a' (translated_current_page a')
  else (a, []).

End Shell.

Arguments SCall {Image Language Translation} e.
Arguments SDraw {Image Language Translation} p image.
Arguments SPageLabel {Image Language Translation} p text.
Arguments SFileLabel {Image Language Translation} text.
Arguments SNavConfig {Image Language Translation} b s.


(** [os.path.basename(path)]: what follows the last slash; [cur] is the
    part read since the last slash, reversed. *)
Fixpoint basename_from (cur : pystr) (path : pystr) : pystr :=
  match path with
  | [] => rev cur
  | c :: rest =>
      if (c =? 47)%N then basename_from [] rest else basename_from (c :: cur) rest
  end.

Definition basename (path : pystr) : pystr := basename_from [] path.

Section ShellActions.

Variables Image Language Translation : Type.
Variable w : World Image Language Translation.

(** [select_pdf(self)], on the answer [file_path] of the file dialog (the
    empty string when the dialog is dismissed). *)
Definition select_pdf (a : App Image) (file_path : pystr)
  : App Image * list (shell_event Image Language Translation) :=
  if PyStr.truthy file_path
  then
    let a1 := set_input_pdf_path file_path a in
    match open_pdf w file_path with
    | Raises e =>
        (a1, [SFileLabel (basename file_path); SCall (EOpen file_path);
              SCall (EShowError (PyStr.lit "Failed to read PDF: " ++ e))])
    | Returns pages =>
        let a2 := set_original_total_pages (List.length pages) a1 in
        let state := if (1 <? original_total_pages a2)%nat then NORMAL else DISABLED in
        let a3 := set_original_current_page 1 a2 in
        let (a4, tr) := display_original_preview w a3 (original_current_page a3) in
        (a4, [SFileLabel (basename file_path); SCall (EOpen file_path);
              SNavConfig prev_orig_button state;
              SNavConfig next_orig_button state] ++ tr)
    end
  else (a, []).

(** What the user does in the window. *)
Inductive action : Type :=
| Select (file_path : pystr)
| PrevOriginal | NextOriginal | PrevTranslated | NextTranslated.

Definition act (a : App Image) (x : action)
  : App Image * list (shell_event Image Language Translation) :=
  match x with
  | Select file_path => select_pdf a file_path
  | PrevOriginal => prev_original_page w a
  | NextOriginal => next_original_page w a
  | PrevTranslated => prev_translated_page w a
  | NextTranslated => next_translated_page w a
  end.

(** The actions of the panel of the original document. *)
Definition on_original_panel (x : action) : bool :=
  match x with
  | Select _ | PrevOriginal | NextOriginal => true
  | PrevTranslated | NextTranslated => false
  end.

Fixpoint run (a : App Image) (xs : list action)
  : App Image * list (shell_event Image Language Translation) :=
  match xs with
  | [] => (a, [])
  | x :: rest =>
      let (a1, t1) := act a x in
      let (a2, t2) := run a1 rest in
      (a2, t1 ++ t2)
  end.

(** Both page counters are at least 1 and at most the page count of their
    document, or 1 when the count is 0. *)
Definition pages_in_range (a : App Image) : Prop :=
  (1 <= original_current_page a <= Nat.max 1 (original_total_pages a))%nat
  /\ (1 <= translated_current_page a <= Nat.max 1 (translated_total_pages a))%nat.

(** The rasterizations of a trace: path, resolution, first and last page. *)
Definition rasterizations (tr : list (shell_event Image Language Translation))
  : list (pystr * nat * nat * nat) :=
  flat_map (fun e => match e with
                     | SCall (EConvertFromPath p dpi first last) => [(p, dpi, first, last)]
                     | _ => []
                     end) tr.

End ShellActions.


(** ** [install_required_language_pairs]

    The function catches nothing: an exception of the package index, of a
    download or of an installation ends it.  What
    [translate.get_installed_languages()] answers depends on the packages
    installed so far, so the catalog gives it as a function of the package
    files this run has installed, in order. *)

Section Installer.

Variables Lang Trans Package PackagePath : Type.
Variable lang_code : Lang -> pystr.                 (* lang.code *)
Variable translations_to : Lang -> list Trans.      (* lang.translations_to *)
Variable trans_to_lang : Trans -> Lang.             (* trans.to_lang *)
Variable from_code : Package -> pystr.              (* pkg.from_code *)
Variable to_code : Package -> pystr.                (* pkg.to_code *)

Record Catalog : Type := {
  update_package_index : outcome unit;
  get_available_packages : outcome (list Package);
  download : Package -> outcome PackagePath;              (* pkg.download() *)
  install_from_path : PackagePath -> outcome unit;
  installed_languages_after : list PackagePath -> outcome (list Lang)
}.

Inductive install_event : Type :=
| IPrint (text : pystr)
| IUpdatePackageIndex
| IGetAvailablePackages
| IGetInstalledLanguages
| IDownload (pkg : Package)
| IInstallFromPath (pkg_path : PackagePath).

Definition IM (A : Type) : Type := (outcome A * list install_event)%type.

Definition iret {A} (a : A) : IM A := (Returns a, []).

Definition ibind {A B} (m : IM A) (f : A -> IM B) : IM B :=
  match m with
  | (Returns a, tr) => let (r, tr') := f a in (r, tr ++ tr')
  | (Raises msg, tr) => (Raises msg, tr)
  end.

Definition icall {A} (e : install_event) (o : outcome A) : IM A := (o, [e]).

Definition print (text : pystr) : IM unit := (Returns tt, [IPrint text]).

Variable c : Catalog.

Definition required_pairs : list (pystr * pystr) :=
  [(PyStr.lit "ko", PyStr.lit "en"); (PyStr.lit "en", PyStr.lit "ko");
   (PyStr.lit "de", PyStr.lit "en"); (PyStr.lit "en", PyStr.lit "de");
   (PyStr.lit "zh", PyStr.lit "en"); (PyStr.lit "en", PyStr.lit "zh");
   (PyStr.lit "es", PyStr.lit "en"); (PyStr.lit "en", PyStr.lit "es")].

(** [is_pair_installed(src, tgt, installed_langs)] *)
Definition is_pair_installed (src tgt : pystr) (installed_langs : list Lang) : bool :=
  existsb (fun lang =>
             PyStr.eqb (lang_code lang) src
             && existsb (fun trans => PyStr.eqb (lang_code (trans_to_lang trans)) tgt)
                        (translations_to lang))
          installed_langs.

(** The inner loop with its [break]: the first package of the pair. *)
Definition find_package (src tgt : pystr) (available_packages : list Package)
  : option Package :=
  find (fun pkg => PyStr.eqb (from_code pkg) src && PyStr.eqb (to_code pkg) tgt)
       available_packages.

Definition installing_message (src tgt : pystr) : pystr :=
  PyStr.lit "Installing language package for " ++ src ++ PyStr.lit " -> " ++ tgt
    ++ PyStr.lit "...".

Definition no_package_message (src tgt : pystr) : pystr :=
  PyStr.lit "No available package found for " ++ src ++ PyStr.lit " -> " ++ tgt
    ++ PyStr.lit ".".

(** One iteration of [for src, tgt in required_pairs], on [installed_langs]
    and the package files installed so far. *)
Definition install_pair (available_packages : list Package)
           (state : list Lang * list PackagePath) (src_tgt : pystr * pystr)
  : IM (list Lang * list PackagePath) :=
  let (installed_langs, installed_files) := state in
  let (src, tgt) := src_tgt in
  if is_pair_installed src tgt installed_langs then iret state
  else
    match find_package src tgt available_packages with
    | Some found_package =>
        ibind (print (installing_message src tgt)) (fun _ =>
        ibind (icall (IDownload found_package) (download c found_package))
              (fun pkg_path =>
        ibind (icall (IInstallFromPath pkg_path) (install_from_path c pkg_path))
              (fun _ =>
        ibind (icall IGetInstalledLanguages
                     (installed_languages_after c (installed_files ++ [pkg_path])))
              (fun langs => iret (langs, installed_files ++ [pkg_path])))))
    | None =>
        ibind (print (no_package_message src tgt)) (fun _ => iret state)
    end.

Fixpoint install_loop (available_packages : list Package)
         (pairs : list (pystr * pystr)) (state : list Lang * list PackagePath)
  : IM (list Lang * list PackagePath) :=
  match pairs with
  | [] => iret state
  | src_tgt :: rest =>
      ibind (install_pair available_packages state src_tgt)
            (fun state' => install_loop available_packages rest state')
  end.

Definition install_required_language_pairs : IM unit :=
  ibind (print (PyStr.lit "Updating package index...")) (fun _ =>
  ibind (icall IUpdatePackageIndex (update_package_index c)) (fun _ =>
  ibind (icall IGetAvailablePackages (get_available_packages c))
        (fun available_packages =>
  ibind (icall IGetInstalledLanguages (installed_languages_after c []))
        (fun installed_langs =>
  ibind (install_loop available_packages required_pairs (installed_langs, []))
        (fun _ => iret tt))))).

(** The packages a trace downloads, in order. *)
Definition downloads (tr : list install_event) : list Package :=
  flat_map (fun e => match e with IDownload pkg => [pkg] | _ => [] end) tr.

(** For each pair of the list in turn, the first package the index has
    for it, if any. *)
Definition packages_of_pairs (pairs : list (pystr * pystr))
           (available_packages : list Package) : list Package :=
  flat_map (fun src_tgt =>
              match find_package (fst src_tgt) (snd src_tgt) available_packages with
              | Some pkg => [pkg]
              | None => []
              end) pairs.

End Installer.

Arguments IPrint {Package PackagePath} text.
Arguments IUpdatePackageIndex {Package PackagePath}.
Arguments IGetAvailablePackages {Package PackagePath}.
Arguments IGetInstalledLanguages {Package PackagePath}.
Arguments IDownload {Package PackagePath} pkg.
Arguments IInstallFromPath {Package PackagePath} pkg_path.


(** A sample catalog.  A language is its code and a translation is its pair
    of codes; as in Argos Translate, [translations_to] of a language lists
    the translations into that language.  A package is its pair of codes
    and a package file is numbered. *)
Definition sample_lang_code (l : pystr) : pystr := l.
Definition sample_translations_to (l : pystr) : list (pystr * pystr) :=
  if PyStr.eqb l (PyStr.lit "en") then [(PyStr.lit "ko", PyStr.lit "en")]
  else if PyStr.eqb l (PyStr.lit "ko") then [(PyStr.lit "en", PyStr.lit "ko")]
  else [].
Definition sample_trans_to_lang (t : pystr * pystr) : pystr := snd t.

(** Korean and English are installed with the translations both ways, and
    the index offers these two packages and German to English. *)
Definition korean_catalog : Catalog pystr (pystr * pystr) nat :=
  {| update_package_index := Returns tt;
     get_available_packages :=
       Returns [(PyStr.lit "de", PyStr.lit "en"); (PyStr.lit "ko", PyStr.lit "en");
                (PyStr.lit "en", PyStr.lit "ko")];
     download := fun pkg => Returns (List.length (fst pkg));
     install_from_path := fun _ => Returns tt;
     installed_languages_after := fun _ => Returns [PyStr.lit "en"; PyStr.lit "ko"] |}.


(** Page 1 has text and the extraction of page 2 raises. *)
Definition world_extract_raises : World nat pystr nat :=
  sample_world [page_of (Returns (Some (PyStr.lit "A")));
                page_of (Raises (PyStr.lit "bad stream"))]
               (fun _ => Returns [2%nat])
               (fun _ => Returns (PyStr.lit "Hola"))
               [] (fun _ _ => Returns None) (fun _ t => Returns t).


(** * Properties *)

(** ** Strings *)

Lemma strip_nil : PyStr.strip [] = [].
Proof. reflexivity. Qed.

Lemma truthy_false (s : pystr) : PyStr.truthy s = false <-> s = [].
Proof. destruct s; simpl; split; congruence. Qed.

Lemma truthy_true (s : pystr) : PyStr.truthy s = true <-> s <> [].
Proof. destruct s; simpl; split; congruence. Qed.

Lemma lstrip_blank (s : pystr) : blank s -> PyStr.lstrip s = [].
Proof.
  induction 1 as [|c s Hc _ IH]; simpl; [reflexivity|].
  now rewrite Hc.
Qed.

Lemma strip_blank (s : pystr) : blank s -> PyStr.strip s = [].
Proof.
  intros H. unfold PyStr.strip. now rewrite (lstrip_blank H).
Qed.

Lemma lstrip_head (s : pystr) c r :
  PyStr.lstrip s = c :: r -> PyStr.isspace c = false.
Proof.
  induction s as [|a s IH]; simpl; [discriminate|].
  destruct (PyStr.isspace a) eqn:E; [exact IH|].
  now intros [= <- _].
Qed.

Lemma lstrip_nil_blank (s : pystr) : PyStr.lstrip s = [] -> blank s.
Proof.
  induction s as [|a s IH]; simpl; [constructor|].
  destruct (PyStr.isspace a) eqn:E; [|discriminate].
  intros H. constructor; [exact E | exact (IH H)].
Qed.

(** Trimming leaves nothing exactly when the string is blank. *)
Lemma strip_nil_iff (s : pystr) : PyStr.strip s = [] <-> blank s.
Proof.
  split; [|apply strip_blank].
  unfold PyStr.strip, PyStr.rstrip. intros H.
  apply (f_equal (@rev _)) in H. rewrite rev_involutive in H. simpl in H.
  apply lstrip_nil_blank, Forall_rev in H. rewrite rev_involutive in H.
  destruct (PyStr.lstrip s) as [|c r] eqn:E; [now apply lstrip_nil_blank|].
  apply lstrip_head in E. inversion H; congruence.
Qed.

(** The test [page_text and page_text.strip()] fails exactly on an absent
    result and on a blank one. *)
Lemma has_text_false (r : option pystr) :
  has_text r = false <-> r = None \/ exists t, r = Some t /\ blank t.
Proof.
  destruct r as [t|]; simpl.
  - rewrite andb_false_iff, !truthy_false, strip_nil_iff. split.
    + intros [->| H]; right; [exists [] | exists t]; split; auto; constructor.
    + intros [H|[t' [E H]]]; [discriminate|]. injection E as <-. now right.
  - split; auto.
Qed.

Lemma has_text_true (r : option pystr) :
  has_text r = true <-> exists t, r = Some t /\ ~ blank t.
Proof.
  destruct r as [t|]; simpl.
  - rewrite andb_true_iff, !truthy_true, strip_nil_iff. split.
    + intros [_ H]. now exists t.
    + intros [t' [E H]]. injection E as <-. split; auto.
      intros ->. apply H. constructor.
  - split; [discriminate|]. now intros [t [E _]].
Qed.

(** ** Text acquisition *)

Section AcquisitionFacts.

Variables Image Language Translation : Type.
Variable w : World Image Language Translation.

Lemma bind_returns {A B} (a : A) tr (f : A -> M Image Language Translation B) :
  bind (Returns a, tr) f = (fst (f a), tr ++ snd (f a)).
Proof. unfold bind. now destruct (f a). Qed.

Lemma bind_raises {A B} msg tr (f : A -> M Image Language Translation B) :
  bind (Raises msg, tr) f = (Raises msg, tr).
Proof. reflexivity. Qed.

Lemma callback_returns_eq cb v :
  callback_returns cb ->
  if_callback cb v = (Returns tt, snd (if_callback (Image:=Image)
                                         (Language:=Language)
                                         (Translation:=Translation) cb v)).
Proof.
  intros H. specialize (H v). destruct (if_callback cb v) as [o tr].
  simpl in *. now subst.
Qed.

(** The loop body when the page has embedded text. *)
Lemma page_body_direct pdf_path cb N i page text t :
  callback_returns cb ->
  extract_text page = Returns (Some t) ->
  ~ blank t ->
  page_body w pdf_path cb N i page text
  = (Returns (text ++ t ++ [PyStr.LF]),
     EExtractText i :: snd (if_callback cb (progress_value w i N))).
Proof.
  intros Hcb He Ht. unfold page_body, call. rewrite He, bind_returns.
  assert (Hh : has_text (Some t) = true) by (apply has_text_true; eauto).
  rewrite Hh. unfold ret at 1. rewrite bind_returns.
  rewrite (callback_returns_eq _ Hcb), bind_returns. simpl.
  now rewrite !app_nil_r.
Qed.

(** The loop body when recognition is needed and goes through. *)
Lemma page_body_recognized pdf_path cb N i page text r image0 rest t :
  callback_returns cb ->
  extract_text page = Returns r ->
  has_text r = false ->
  convert_from_path w pdf_path 200 i i = Returns (image0 :: rest) ->
  image_to_string w image0 = Returns t ->
  page_body w pdf_path cb N i page text
  = (Returns (text ++ t ++ [PyStr.LF]),
     EExtractText i :: EConvertFromPath pdf_path 200 i i
       :: EImageToString image0 :: snd (if_callback cb (progress_value w i N))).
Proof.
  intros Hcb He Hh Hc Ho. unfold page_body, ocr_fallback, call.
  rewrite He, bind_returns, Hh, Hc, bind_returns, Ho. simpl.
  rewrite (callback_returns_eq _ Hcb). simpl.
  now rewrite !app_nil_r.
Qed.

(** The loop body when rasterization comes back with no image. *)
Lemma page_body_no_image pdf_path cb N i page text r :
  callback_returns cb ->
  extract_text page = Returns r ->
  has_text r = false ->
  convert_from_path w pdf_path 200 i i = Returns [] ->
  page_body w pdf_path cb N i page text
  = (Returns text,
     EExtractText i :: EConvertFromPath pdf_path 200 i i
       :: snd (if_callback cb (progress_value w i N))).
Proof.
  intros Hcb He Hh Hc. unfold page_body, ocr_fallback, call.
  rewrite He, bind_returns, Hh, Hc. simpl.
  rewrite (callback_returns_eq _ Hcb). simpl.
  now rewrite !app_nil_r.
Qed.

(** The loop body when rasterization or recognition raises: the message
    names the page and carries the cause, and the callback is not
    reached. *)
Lemma page_body_ocr_raises pdf_path cb N i page text r cause :
  extract_text page = Returns r ->
  has_text r = false ->
  (convert_from_path w pdf_path 200 i i = Raises cause
   \/ exists image0 rest,
       convert_from_path w pdf_path 200 i i = Returns (image0 :: rest)
       /\ image_to_string w image0 = Raises cause) ->
  fst (page_body w pdf_path cb N i page text)
  = Raises (ocr_error_prefix ++ PyStr.of_nat i ++ PyStr.lit ": " ++ cause).
Proof.
  intros He Hh Hc. unfold page_body, ocr_fallback, call.
  rewrite He, bind_returns, Hh.
  destruct Hc as [Hc | (image0 & rest & Hc & Ho)]; rewrite Hc; simpl;
    [reflexivity | now rewrite Ho].
Qed.

(** *** The loop and the whole function *)

Lemma bind_bind {A B C} (m : M Image Language Translation A)
      (f : A -> M Image Language Translation B)
      (g : B -> M Image Language Translation C) :
  bind (bind m f) g = bind m (fun a => bind (f a) g).
Proof.
  destruct m as [[a|msg] tr]; simpl; [|reflexivity].
  destruct (f a) as [[b|msg] tr1]; simpl; [|reflexivity].
  destruct (g b) as [o tr2]. now rewrite app_assoc.
Qed.

Lemma bind_ret_l {A B} (a : A) (f : A -> M Image Language Translation B) :
  bind (ret a) f = f a.
Proof. unfold ret, bind. now destruct (f a). Qed.

Lemma bind_ext {A B} (m : M Image Language Translation A)
      (f g : A -> M Image Language Translation B) :
  (forall a, f a = g a) -> bind m f = bind m g.
Proof.
  intros H. destruct m as [[a|msg] tr]; simpl; [|reflexivity]. now rewrite H.
Qed.

Lemma fst_bind_raises {A B} (m : M Image Language Translation A)
      (f : A -> M Image Language Translation B) msg :
  fst m = Raises msg -> fst (bind m f) = Raises msg.
Proof. destruct m as [[a|e] tr]; simpl; congruence. Qed.

(** Running the loop on [pre ++ post] is running it on [pre], then on
    [post] from the text and the page number reached. *)
Lemma page_loop_app pdf_path cb N pre : forall post i text,
  page_loop w pdf_path cb N i (pre ++ post) text
  = bind (page_loop w pdf_path cb N i pre text)
         (fun text' => page_loop w pdf_path cb N (i + List.length pre) post text').
Proof.
  induction pre as [|page pre IH]; intros post i text;
    cbn [page_loop app List.length].
  - now rewrite bind_ret_l, Nat.add_0_r.
  - rewrite bind_bind. apply bind_ext. intros t.
    now rewrite IH, Nat.add_succ_r.
Qed.

(** [extract_text_from_pdf] once the document is open, by the outcome of
    the loop. *)
Lemma extract_text_from_pdf_opened pdf_path cb pages :
  open_pdf w pdf_path = Returns pages ->
  extract_text_from_pdf w pdf_path cb
  = match page_loop w pdf_path cb (List.length pages) 1 pages [] with
    | (Returns text, tr) =>
        (if PyStr.truthy (PyStr.strip text) then Returns text
         else Raises no_text_message, EOpen pdf_path :: tr)
    | (Raises e, tr) => (Raises (extract_error_prefix ++ e), EOpen pdf_path :: tr)
    end.
Proof.
  intros Ho. unfold extract_text_from_pdf, call. rewrite Ho, bind_returns.
  destruct (page_loop w pdf_path cb (List.length pages) 1 pages [])
    as [[text|e] tr]; simpl.
  - destruct (PyStr.truthy (PyStr.strip text)); simpl; now rewrite app_nil_r.
  - now rewrite app_nil_r.
Qed.

(** C1 (amended).  For every page whose direct extraction returns, the
    iteration takes the page's text from direct extraction when the
    result is present and non-blank after trimming; when the result is
    absent or blank it rasterizes the page at 200 dpi and, provided the
    rasterization yields at least one image, takes the text recognized on
    the first image (which may be empty).  In both cases the text is
    appended with one line break, and direct extraction calls neither
    rasterization nor recognition. *)
Theorem C1_page_text_source pdf_path cb N i page text r :
  callback_returns cb ->
  extract_text page = Returns r ->
  (forall t, r = Some t -> ~ blank t ->
     page_body w pdf_path cb N i page text
     = (Returns (text ++ t ++ [PyStr.LF]),
        EExtractText i :: snd (if_callback cb (progress_value w i N))))
  /\ (r = None \/ (exists t, r = Some t /\ blank t) ->
      forall image0 rest t,
        convert_from_path w pdf_path 200 i i = Returns (image0 :: rest) ->
        image_to_string w image0 = Returns t ->
        page_body w pdf_path cb N i page text
        = (Returns (text ++ t ++ [PyStr.LF]),
           EExtractText i :: EConvertFromPath pdf_path 200 i i
             :: EImageToString image0
             :: snd (if_callback cb (progress_value w i N)))).
Proof.
  intros Hcb He. split.
  - intros t -> Ht. now apply page_body_direct.
  - intros Hr image0 rest t Hc Ho.
    apply page_body_recognized with (r := r) (rest := rest); auto.
    now apply has_text_false.
Qed.

(** C10.  A page whose direct extraction yields an absent or blank text
    and whose rasterization returns no image raises nothing and leaves the
    accumulated text as it was, without even a line break; its progress
    value is reported all the same. *)
Theorem C10_no_image_contributes_nothing pdf_path N i page text r :
  extract_text page = Returns r ->
  (r = None \/ (exists t, r = Some t /\ blank t)) ->
  convert_from_path w pdf_path 200 i i = Returns [] ->
  page_body w pdf_path (Some update_progress) N i page text
  = (Returns text,
     [EExtractText i; EConvertFromPath pdf_path 200 i i;
      EProgress (progress_value w i N)]).
Proof.
  intros He Hr Hc.
  rewrite page_body_no_image with (r := r); auto.
  - intros v. reflexivity.
  - now apply has_text_false.
Qed.

(** C2.  When rasterization or recognition raises on page [i], reached
    after the pages before it went through, the whole acquisition raises:
    the message is the extraction wrapper around the recognition message,
    which carries the 1-based page number and the cause.  The caller gets
    an exception and so no text of any page. *)
Theorem C2_ocr_failure_is_fatal pdf_path cb pre page post text tr r cause :
  open_pdf w pdf_path = Returns (pre ++ page :: post) ->
  page_loop w pdf_path cb (List.length (pre ++ page :: post)) 1 pre []
  = (Returns text, tr) ->
  extract_text page = Returns r ->
  (r = None \/ (exists t, r = Some t /\ blank t)) ->
  (convert_from_path w pdf_path 200 (S (List.length pre)) (S (List.length pre))
   = Raises cause
   \/ exists image0 rest,
       convert_from_path w pdf_path 200 (S (List.length pre)) (S (List.length pre))
       = Returns (image0 :: rest)
       /\ image_to_string w image0 = Raises cause) ->
  fst (extract_text_from_pdf w pdf_path cb)
  = Raises (extract_error_prefix ++ ocr_error_prefix
              ++ PyStr.of_nat (S (List.length pre)) ++ PyStr.lit ": " ++ cause)
  /\ forall t, fst (extract_text_from_pdf w pdf_path cb) <> Returns t.
Proof.
  intros Ho Hpre He Hr Hc.
  assert (Hloop : fst (page_loop w pdf_path cb (List.length (pre ++ page :: post))
                                 1 (pre ++ page :: post) [])
                  = Raises (ocr_error_prefix ++ PyStr.of_nat (S (List.length pre))
                              ++ PyStr.lit ": " ++ cause)).
  { rewrite page_loop_app, Hpre, bind_returns. cbn [fst page_loop].
    apply fst_bind_raises.
    apply page_body_ocr_raises with (r := r); auto.
    now apply has_text_false. }
  rewrite (extract_text_from_pdf_opened _ _ Ho).
  destruct (page_loop w pdf_path cb (List.length (pre ++ page :: post))
                      1 (pre ++ page :: post) []) as [[t0|e] tr0];
    simpl in Hloop; [discriminate|].
  injection Hloop as ->. simpl. split; [reflexivity | discriminate].
Qed.

Lemma no_text_message_not_wrapped e :
  no_text_message <> extract_error_prefix ++ e.
Proof. discriminate. Qed.

(** C3.  When every page went through and the accumulated text is blank,
    the acquisition raises the no-text message; that message is never the
    wrapped message of a failure inside the page loop, in particular not
    that of a recognition failure; and a text the acquisition returns is
    never blank. *)
Theorem C3_blank_document_is_no_text pdf_path cb :
  (forall pages text tr,
      open_pdf w pdf_path = Returns pages ->
      page_loop w pdf_path cb (List.length pages) 1 pages [] = (Returns text, tr) ->
      blank text ->
      extract_text_from_pdf w pdf_path cb
      = (Raises no_text_message, EOpen pdf_path :: tr))
  /\ (forall i cause,
        no_text_message
        <> extract_error_prefix ++ ocr_error_prefix ++ PyStr.of_nat i
             ++ PyStr.lit ": " ++ cause)
  /\ (forall text,
        fst (extract_text_from_pdf w pdf_path cb) = Returns text ->
        ~ blank text).
Proof.
  split; [|split].
  - intros pages text tr Ho Hl Hs. apply strip_nil_iff in Hs.
    rewrite (extract_text_from_pdf_opened _ _ Ho), Hl, Hs. reflexivity.
  - intros i cause. apply no_text_message_not_wrapped.
  - intros text. unfold extract_text_from_pdf.
    destruct (try_except _ _) as [[t|e] tr]; simpl; [|discriminate].
    destruct (PyStr.truthy (PyStr.strip t)) eqn:Ht; simpl; [|discriminate].
    intros [= ->]. rewrite <- strip_nil_iff. now apply truthy_true.
Qed.

End AcquisitionFacts.

(** ** Binary64 rounding *)

Lemma round_half_even_bounds m :
  (Qfloor m <= round_half_even m <= Qfloor m + 1)%Z.
Proof.
  unfold round_half_even.
  destruct (m - inject_Z (Qfloor m) ?= 1 # 2); [destruct (Z.even (Qfloor m))| |]; lia.
Qed.

(** An integer is left as it is. *)
Lemma round_half_even_Z z : round_half_even (inject_Z z) = z.
Proof.
  unfold round_half_even. rewrite Qfloor_Z.
  destruct (Qcompare_spec (inject_Z z - inject_Z z) (1 # 2)) as [H|H|H];
    [exfalso; lra | reflexivity | exfalso; lra].
Qed.

Lemma round_half_even_le m1 m2 :
  m1 <= m2 -> (round_half_even m1 <= round_half_even m2)%Z.
Proof.
  intros H. pose proof (Qfloor_resp_le _ _ H) as Hf.
  destruct (Z.eq_dec (Qfloor m1) (Qfloor m2)) as [E|E].
  - unfold round_half_even. rewrite <- E.
    destruct (Qcompare_spec (m1 - inject_Z (Qfloor m1)) (1 # 2));
      destruct (Qcompare_spec (m2 - inject_Z (Qfloor m1)) (1 # 2));
      try destruct (Z.even (Qfloor m1)); try lia; exfalso; lra.
  - pose proof (round_half_even_bounds m1). pose proof (round_half_even_bounds m2).
    lia.
Qed.

Lemma pow2_pos e : 0 < 2 ^ e.
Proof. apply Qpower_0_lt. reflexivity. Qed.

Lemma pow2_split a b : 2 ^ (a + b) == 2 ^ a * 2 ^ b.
Proof. apply Qpower_plus. discriminate. Qed.

Lemma pow2_join c a b : (c = a + b)%Z -> 2 ^ c == 2 ^ a * 2 ^ b.
Proof. intros ->. apply pow2_split. Qed.

(** [binade] finds the binade of a positive rational. *)
Lemma binade_spec q :
  0 < q -> 2 ^ binade q <= q /\ q < 2 ^ (binade q + 1).
Proof.
  intros Hq. unfold binade.
  set (a := Qnum q). set (b := Qden q).
  assert (Ha : (0 < a)%Z) by (destruct q as [n d]; unfold Qlt in Hq; simpl in *; lia).
  destruct (Z.log2_spec a Ha) as [Ha1 Ha2].
  destruct (Z.log2_spec (Zpos b) (Pos2Z.is_pos b)) as [Hb1 Hb2].
  set (la := Z.log2 a) in *. set (lb := Z.log2 (Zpos b)) in *.
  assert (Hla : (0 <= la)%Z) by apply Z.log2_nonneg.
  assert (Hlb : (0 <= lb)%Z) by apply Z.log2_nonneg.
  assert (Eq : q == inject_Z a / inject_Z (Zpos b))
    by (destruct q as [n d]; apply Qmake_Qdiv).
  assert (Hbpos : 0 < inject_Z (Zpos b)) by reflexivity.
  rewrite Zle_Qle in Ha1, Hb1. rewrite Zlt_Qlt in Ha2, Hb2.
  rewrite Zpower_Qpower in Ha1, Ha2, Hb1, Hb2 by lia.
  change (inject_Z 2) with 2 in *.
  destruct (Qle_bool (2 ^ (la - lb)) q) eqn:E.
  - apply Qle_bool_iff in E. split; [exact E|].
    rewrite Eq. apply Qlt_shift_div_r; [exact Hbpos|].
    apply Qlt_le_trans with (2 ^ Z.succ la); [exact Ha2|].
    replace (Z.succ la) with ((la - lb + 1) + lb)%Z by lia.
    rewrite pow2_split. apply Qmult_le_l; [apply pow2_pos | exact Hb1].
  - assert (Hlt : q < 2 ^ (la - lb)).
    { apply Qnot_le_lt. intros H. apply Qle_bool_iff in H. congruence. }
    split.
    + rewrite Eq. apply Qle_shift_div_l; [exact Hbpos|].
      apply Qle_trans with (2 ^ la); [|exact Ha1].
      replace la with ((la - lb - 1) + Z.succ lb)%Z at 2 by lia.
      rewrite pow2_split. apply Qmult_le_l; [apply pow2_pos|].
      apply Qlt_le_weak. exact Hb2.
    + replace (la - lb - 1 + 1)%Z with (la - lb)%Z by lia. exact Hlt.
Qed.

Lemma pow2_52 : inject_Z (2 ^ 52) == 2 ^ 52.
Proof. reflexivity. Qed.

Lemma pow2_53 : inject_Z (2 ^ 53) == 2 ^ 53.
Proof. reflexivity. Qed.

(** Scaled to its binade, a positive rational has a significand of 53
    bits. *)
Lemma mantissa_bounds q :
  0 < q ->
  inject_Z (2 ^ 52) <= q * 2 ^ (52 - binade q)
  /\ q * 2 ^ (52 - binade q) <= inject_Z (2 ^ 53).
Proof.
  intros Hq. destruct (@binade_spec q Hq) as [H1 H2].
  pose proof (pow2_pos (52 - binade q)) as Hp. split.
  - rewrite pow2_52, (@pow2_join 52 (binade q) (52 - binade q)) by lia.
    apply Qmult_le_r; assumption.
  - rewrite pow2_53, (@pow2_join 53 (binade q + 1) (52 - binade q)) by lia.
    apply Qlt_le_weak. apply Qmult_lt_r; assumption.
Qed.

(** Rounding stays in the closed binade. *)
Lemma round_positive_bounds q :
  0 < q ->
  2 ^ binade q <= round_positive q /\ round_positive q <= 2 ^ (binade q + 1).
Proof.
  intros Hq. destruct (@mantissa_bounds q Hq) as [H1 H2].
  apply round_half_even_le in H1, H2. rewrite round_half_even_Z in H1, H2.
  rewrite Zle_Qle in H1, H2. rewrite pow2_52 in H1. rewrite pow2_53 in H2.
  pose proof (pow2_pos (binade q - 52)) as Hp.
  unfold round_positive. split.
  - rewrite (@pow2_join (binade q) 52 (binade q - 52)) by lia.
    apply Qmult_le_r; assumption.
  - rewrite (@pow2_join (binade q + 1) 53 (binade q - 52)) by lia.
    apply Qmult_le_r; assumption.
Qed.

Lemma round_positive_le x y :
  0 < x -> x <= y -> round_positive x <= round_positive y.
Proof.
  intros Hx Hxy. assert (Hy : 0 < y) by lra.
  destruct (@binade_spec x Hx) as [Hx1 Hx2].
  destruct (@binade_spec y Hy) as [Hy1 Hy2].
  assert (He : (binade x <= binade y)%Z).
  { assert (H : 2 ^ binade x < 2 ^ (binade y + 1)) by lra.
    apply Qpower_lt_compat_l_inv in H; [lia | reflexivity]. }
  destruct (Z.eq_dec (binade x) (binade y)) as [E|E].
  - unfold round_positive. rewrite E.
    apply Qmult_le_r; [apply pow2_pos|].
    rewrite <- Zle_Qle. apply round_half_even_le.
    apply Qmult_le_r; [apply pow2_pos | exact Hxy].
  - destruct (@round_positive_bounds x Hx) as [_ Hbx].
    destruct (@round_positive_bounds y Hy) as [Hby _].
    apply Qle_trans with (2 ^ (binade x + 1)); [exact Hbx|].
    apply Qle_trans with (2 ^ binade y); [|exact Hby].
    apply Qpower_le_compat_l; [lia | discriminate].
Qed.

Lemma round_positive_pos q : 0 < q -> 0 < round_positive q.
Proof.
  intros Hq. destruct (@round_positive_bounds q Hq) as [H _].
  pose proof (pow2_pos (binade q)). lra.
Qed.

Lemma round_binary64_le x y : x <= y -> round_binary64 x <= round_binary64 y.
Proof.
  intros Hxy. unfold round_binary64.
  destruct (Qcompare_spec x 0) as [Hx|Hx|Hx];
    destruct (Qcompare_spec y 0) as [Hy|Hy|Hy]; try (exfalso; lra).
  - lra.
  - assert (H := @round_positive_pos y Hy). lra.
  - assert (H := @round_positive_pos (- x) ltac:(lra)). lra.
  - assert (H := @round_positive_le (- y) (- x) ltac:(lra) ltac:(lra)). lra.
  - assert (H1 := @round_positive_pos (- x) ltac:(lra)).
    assert (H2 := @round_positive_pos y Hy). lra.
  - now apply round_positive_le.
Qed.

(** Binary64 rounding is a rounding the properties below apply to. *)
Lemma round_binary64_sound : sound_rounding round_binary64.
Proof.
  split; [exact round_binary64_le|].
  repeat split; vm_compute; reflexivity.
Qed.

(** ** Progress values *)

Section RoundingFacts.

Variables Image Language Translation : Type.
Variable w : World Image Language Translation.
Hypothesis Hround : sound_rounding (float_round w).

Lemma quotient_le (i j N : nat) :
  (i <= j)%nat ->
  inject_Z (Z.of_nat i) / inject_Z (Z.of_nat N)
  <= inject_Z (Z.of_nat j) / inject_Z (Z.of_nat N).
Proof.
  intros H. unfold Qdiv. apply Qmult_le_compat_r.
  - rewrite <- Zle_Qle. lia.
  - apply Qinv_le_0_compat. change 0 with (inject_Z 0).
    rewrite <- Zle_Qle. lia.
Qed.

Lemma quotient_bounds (i N : nat) :
  (i <= N)%nat ->
  0 <= inject_Z (Z.of_nat i) / inject_Z (Z.of_nat N)
  /\ inject_Z (Z.of_nat i) / inject_Z (Z.of_nat N) <= 1.
Proof.
  intros H. split.
  - unfold Qdiv.
    apply Qmult_le_0_compat; [|apply Qinv_le_0_compat];
      change 0 with (inject_Z 0); rewrite <- Zle_Qle; lia.
  - destruct N as [|N].
    + assert (i = 0)%nat as -> by lia. discriminate.
    + apply Qle_shift_div_r.
      * change 0 with (inject_Z 0). rewrite <- Zlt_Qlt. lia.
      * rewrite Qmult_1_l, <- Zle_Qle. lia.
Qed.

Lemma progress_value_le (i j N : nat) :
  (i <= j)%nat -> progress_value w i N <= progress_value w j N.
Proof.
  intros H. destruct Hround as (Hmono & _). unfold progress_value.
  apply Hmono. apply Qmult_le_compat_r; [|discriminate].
  apply Hmono. now apply quotient_le.
Qed.

Lemma progress_value_bounds (i N : nat) :
  (i <= N)%nat -> 0 <= progress_value w i N /\ progress_value w i N <= 50.
Proof.
  intros H. destruct Hround as (Hmono & H0 & H1 & H50).
  destruct (quotient_bounds H) as [Hlo Hhi].
  apply Hmono in Hlo, Hhi. rewrite H0 in Hlo. rewrite H1 in Hhi.
  unfold progress_value. split.
  - rewrite <- H0. apply Hmono.
    apply Qmult_le_0_compat; [exact Hlo | discriminate].
  - rewrite <- H50 at 2. apply Hmono.
    setoid_replace 50 with (1 * 50) at 2 by reflexivity.
    apply Qmult_le_compat_r; [exact Hhi | discriminate].
Qed.

Lemma progress_values_sorted (N k : nat) : forall i,
  StronglySorted Qle (map (fun j => progress_value w j N) (seq i k)).
Proof.
  induction k as [|k IH]; intros i; simpl; constructor.
  - apply IH.
  - apply Forall_forall. intros v Hv. apply in_map_iff in Hv.
    destruct Hv as (j & <- & Hj). apply in_seq in Hj.
    apply progress_value_le. lia.
Qed.

(** The report of the last page is 50 itself. *)
Lemma progress_value_last (N : nat) :
  (1 <= N)%nat -> progress_value w N N == 50.
Proof.
  intros H. destruct Hround as (Hmono & H0 & H1 & H50).
  assert (Hq : inject_Z (Z.of_nat N) / inject_Z (Z.of_nat N) == 1).
  { apply Qmult_inv_r. intros E. unfold Qeq in E. simpl in E. lia. }
  assert (Hext : forall x y, x == y -> float_round w x == float_round w y).
  { intros x y E. apply Qle_antisym; apply Hmono; rewrite E; apply Qle_refl. }
  unfold progress_value.
  rewrite (Hext _ _ (Qmult_comp _ _ (Hext _ _ Hq) _ _ (Qeq_refl 50))).
  rewrite <- H50 at 2. apply Hext. rewrite H1. reflexivity.
Qed.

End RoundingFacts.

Section ProgressFacts.

Variables Image Language Translation : Type.
Variable w : World Image Language Translation.

Lemma snd_bind {A B} (m : M Image Language Translation A)
      (f : A -> M Image Language Translation B) :
  snd (bind m f)
  = snd m ++ match fst m with Returns a => snd (f a) | Raises _ => [] end.
Proof.
  destruct m as [[a|e] tr]; simpl.
  - now destruct (f a).
  - now rewrite app_nil_r.
Qed.

Lemma fst_bind {A B} (m : M Image Language Translation A)
      (f : A -> M Image Language Translation B) :
  fst (bind m f)
  = match fst m with Returns a => fst (f a) | Raises e => Raises e end.
Proof.
  destruct m as [[a|e] tr]; simpl; [|reflexivity]. now destruct (f a).
Qed.

Lemma page_marks_app (a b : list (event Image Language Translation)) :
  page_marks (a ++ b) = page_marks a ++ page_marks b.
Proof. apply filter_app. Qed.

Lemma reported_app (a b : list (event Image Language Translation)) :
  reported (a ++ b) = reported a ++ reported b.
Proof. apply flat_map_app. Qed.

Lemma reported_page_marks (tr : list (event Image Language Translation)) :
  reported (page_marks tr) = reported tr.
Proof.
  induction tr as [|e tr IH]; [reflexivity|].
  destruct e; simpl; try rewrite IH; reflexivity.
Qed.

(** The marks one page leaves when the callback is [update_progress]: its
    start, then its report if the iteration came to its end. *)
Lemma page_body_marks pdf_path N i page text :
  page_marks (snd (page_body w pdf_path (Some update_progress) N i page text))
  = match fst (page_body w pdf_path (Some update_progress) N i page text) with
    | Returns _ => [EExtractText i; EProgress (progress_value w i N)]
    | Raises _ => [EExtractText i]
    end.
Proof.
  unfold page_body, ocr_fallback, call.
  destruct (extract_text page) as [r|e]; [|reflexivity].
  rewrite bind_returns. destruct (has_text r); [reflexivity|].
  destruct (convert_from_path w pdf_path 200 i i) as [[|image0 rest]|e];
    try reflexivity.
  simpl. destruct (image_to_string w image0); reflexivity.
Qed.

(** An iteration returns exactly on a page that goes through. *)
Lemma page_body_goes_through pdf_path N i page text :
  page_goes_through w pdf_path i page
  = match fst (page_body w pdf_path (Some update_progress) N i page text) with
    | Returns _ => true
    | Raises _ => false
    end.
Proof.
  unfold page_goes_through, page_body, ocr_fallback, call.
  destruct (extract_text page) as [r|e]; [|reflexivity].
  rewrite bind_returns. destruct (has_text r); [reflexivity|].
  destruct (convert_from_path w pdf_path 200 i i) as [[|image0 rest]|e];
    try reflexivity.
  simpl. destruct (image_to_string w image0); reflexivity.
Qed.

(** The loop leaves the marks of the pages that go through, then the start
    of the page that does not, if there is one; it returns exactly when
    every page went through. *)
Lemma page_loop_marks pdf_path N pages : forall i text,
  page_marks (snd (page_loop w pdf_path (Some update_progress) N i pages text))
  = marks_of w N i (pages_gone_through w pdf_path i pages)
      ++ (if (pages_gone_through w pdf_path i pages <? List.length pages)%nat
          then [EExtractText (i + pages_gone_through w pdf_path i pages)]
          else [])
  /\ (pages_gone_through w pdf_path i pages <= List.length pages)%nat
  /\ match fst (page_loop w pdf_path (Some update_progress) N i pages text) with
     | Returns _ => pages_gone_through w pdf_path i pages = List.length pages
     | Raises _ => (pages_gone_through w pdf_path i pages < List.length pages)%nat
     end.
Proof.
  induction pages as [|page pages IH]; intros i text;
    cbn [page_loop pages_gone_through List.length].
  - simpl. repeat split; auto.
  - rewrite snd_bind, fst_bind, page_marks_app, page_body_marks.
    rewrite (page_body_goes_through pdf_path N i page text).
    destruct (fst (page_body w pdf_path (Some update_progress) N i page text))
      as [text'|e].
    + destruct (IH (S i) text') as (Hm & Hk & Ho). rewrite Hm.
      split; [|split].
      * unfold marks_of. cbn [seq flat_map app].
        change (S (pages_gone_through w pdf_path (S i) pages) <? S (List.length pages))%nat
          with (pages_gone_through w pdf_path (S i) pages <? List.length pages)%nat.
        now rewrite Nat.add_succ_r.
      * lia.
      * destruct (fst (page_loop w pdf_path (Some update_progress) N (S i) pages text'));
          lia.
    + split; [|split; [lia | lia]].
      simpl. now rewrite Nat.add_0_r.
Qed.

Lemma pages_gone_through_all pdf_path pages : forall i,
  (forall j page,
      nth_error pages j = Some page ->
      page_goes_through w pdf_path (i + j) page = true) ->
  pages_gone_through w pdf_path i pages = List.length pages.
Proof.
  induction pages as [|page pages IH]; intros i H; simpl; [reflexivity|].
  pose proof (H 0%nat page eq_refl) as H0. rewrite Nat.add_0_r in H0. rewrite H0.
  f_equal. apply IH. intros j p Hj. specialize (H (S j) p Hj).
  now rewrite Nat.add_succ_r in H.
Qed.

Lemma reported_marks_of N k : forall i,
  reported (marks_of w N i k)
  = map (fun j => progress_value w j N) (seq i k).
Proof.
  unfold marks_of. induction k as [|k IH]; intros i; simpl; [reflexivity|].
  f_equal. apply IH.
Qed.

(** C4.  Once the document of [N] pages is open, let [k] be the number of
    pages that go through before the first page whose extraction,
    rasterization or recognition raises ([k] is [N] when every page goes
    through).  The acquisition reports to its callback exactly once after
    each of the pages 1 to [k], in this order, and the value after page [i]
    is that of [(i / N) * 50] in float arithmetic; the trace shows each of
    these pages started and then reported, and after them only the start
    of page [k + 1] when that page fails.  The values reported are
    non-decreasing and lie between 0 and 50. *)
Theorem C4_acquisition_progress pdf_path pages :
  sound_rounding (float_round w) ->
  open_pdf w pdf_path = Returns pages ->
  let N := List.length pages in
  let k := pages_gone_through w pdf_path 1 pages in
  let value := fun i : nat =>
    float_round w
      (float_round w (inject_Z (Z.of_nat i) / inject_Z (Z.of_nat N)) * 50) in
  let acq := extract_text_from_pdf w pdf_path (Some update_progress) in
  reported (snd acq) = map value (seq 1 k)
  /\ page_marks (snd acq)
     = flat_map (fun i => [EExtractText i; EProgress (value i)]) (seq 1 k)
         ++ (if (k <? N)%nat then [EExtractText (S k)] else [])
  /\ (k <= N)%nat
  /\ ((forall j page,
          nth_error pages j = Some page ->
          page_goes_through w pdf_path (S j) page = true) ->
      k = N)
  /\ StronglySorted Qle (reported (snd acq))
  /\ Forall (fun v => 0 <= v /\ v <= 50) (reported (snd acq)).
Proof.
  intros Hround Ho N k value acq.
  change value with (fun i => progress_value w i N).
  change (flat_map _ (seq 1 k)) with (marks_of w N 1 k).
  destruct (page_loop_marks pdf_path N pages 1 []) as (Hm & Hk & _).
  fold k in Hm, Hk. fold N in Hm, Hk.
  assert (Hsnd : snd acq
                 = EOpen pdf_path
                     :: snd (page_loop w pdf_path (Some update_progress) N 1 pages [])).
  { unfold acq.
    rewrite (@extract_text_from_pdf_opened _ _ _ w pdf_path (Some update_progress)
               pages Ho).
    fold N.
    now destruct (page_loop w pdf_path (Some update_progress) N 1 pages [])
      as [[t|e] tr]. }
  assert (Hrep : reported (snd acq) = map (fun i => progress_value w i N) (seq 1 k)).
  { rewrite Hsnd. cbn [reported flat_map app].
    change (flat_map _ ?l) with (reported l).
    rewrite <- reported_page_marks, Hm, reported_app, reported_marks_of.
    destruct (k <? N)%nat; simpl; now rewrite app_nil_r. }
  split; [exact Hrep|]. split; [|split; [exact Hk|split; [|split]]].
  - rewrite Hsnd. cbn [page_marks filter]. exact Hm.
  - intros Hall. apply pages_gone_through_all. exact Hall.
  - rewrite Hrep. now apply progress_values_sorted.
  - rewrite Hrep. apply Forall_forall. intros v Hv. apply in_map_iff in Hv.
    destruct Hv as (j & <- & Hj). apply in_seq in Hj.
    apply progress_value_bounds; [exact Hround | lia].
Qed.

Lemma snd_page_body_direct pdf_path cb N i page text r :
  extract_text page = Returns r ->
  has_text r = true ->
  snd (page_body w pdf_path cb N i page text)
  = EExtractText i :: snd (if_callback cb (progress_value w i N)).
Proof.
  intros He Hh. unfold page_body, call. rewrite He, bind_returns, Hh.
  rewrite bind_ret_l, snd_bind. simpl.
  destruct (fst (if_callback cb (progress_value w i N))); now rewrite app_nil_r.
Qed.

Lemma page_loop_all_direct pdf_path cb N pages :
  Forall (fun page => exists t, extract_text page = Returns (Some t)
                                /\ ~ blank t) pages ->
  (forall v, Forall (fun e => is_ocr_event e = false) (snd (if_callback cb v))) ->
  forall i text,
    Forall (fun e => is_ocr_event e = false)
           (snd (page_loop w pdf_path cb N i pages text)).
Proof.
  intros Hp Hcb. induction Hp as [|page pages (t & He & Ht) _ IH]; intros i text.
  - constructor.
  - cbn [page_loop]. rewrite snd_bind. apply Forall_app. split.
    + assert (Hh : has_text (Some t) = true)
        by (apply (proj2 (has_text_true _)); eauto).
      rewrite (snd_page_body_direct pdf_path cb N i page text He Hh).
      constructor; [reflexivity | apply Hcb].
    + destruct (fst (page_body w pdf_path cb N i page text)); [apply IH | constructor].
Qed.

(** C9.  When every page of the document yields a present text that is
    not blank, the trace of the acquisition holds no rasterization call
    and no recognition call (the callback making none itself). *)
Theorem C9_direct_text_never_rasterizes pdf_path cb pages :
  open_pdf w pdf_path = Returns pages ->
  Forall (fun page => exists t, extract_text page = Returns (Some t)
                                /\ ~ blank t) pages ->
  (forall v, Forall (fun e => is_ocr_event e = false) (snd (if_callback cb v))) ->
  Forall (fun e => is_ocr_event e = false)
         (snd (extract_text_from_pdf w pdf_path cb)).
Proof.
  intros Ho Hp Hcb. rewrite (@extract_text_from_pdf_opened _ _ _ w pdf_path cb pages Ho).
  pose proof (@page_loop_all_direct pdf_path cb (List.length pages) pages Hp Hcb 1%nat [])
    as H.
  destruct (page_loop w pdf_path cb (List.length pages) 1 pages []) as [[t|e] tr];
    simpl in *; constructor; auto.
Qed.

End ProgressFacts.

(** ** Translation *)

Lemma pystr_eqb_eq (a b : pystr) : PyStr.eqb a b = true <-> a = b.
Proof.
  unfold PyStr.eqb. destruct (list_eq_dec N.eq_dec a b); split; congruence.
Qed.

Lemma pystr_eqb_neq (a b : pystr) : PyStr.eqb a b = false <-> a <> b.
Proof.
  unfold PyStr.eqb. destruct (list_eq_dec N.eq_dec a b); split; congruence.
Qed.

Section TranslationFacts.

Variables Image Language Translation : Type.
Variable code : Language -> pystr.
Variable w : World Image Language Translation.

(** A code no installed language bears leaves its slot of the lookup
    untouched. *)
Lemma lookup_from_absent from_code to_code langs :
  Forall (fun lang => code lang <> from_code) langs ->
  forall objs,
    fst (fold_left (lookup_step code from_code to_code) langs objs) = fst objs.
Proof.
  induction 1 as [|lang langs Hl _ IH]; intros objs; simpl; [reflexivity|].
  rewrite IH. unfold lookup_step.
  rewrite (proj2 (pystr_eqb_neq _ _) Hl).
  now destruct (PyStr.eqb (code lang) to_code).
Qed.

Lemma lookup_to_absent from_code to_code langs :
  Forall (fun lang => code lang <> to_code) langs ->
  forall objs,
    snd (fold_left (lookup_step code from_code to_code) langs objs) = snd objs.
Proof.
  induction 1 as [|lang langs Hl _ IH]; intros objs; simpl; [reflexivity|].
  rewrite IH. unfold lookup_step.
  rewrite (proj2 (pystr_eqb_neq _ _) Hl).
  now destruct (PyStr.eqb (code lang) from_code).
Qed.

(** What the lookup finds is an installed language that bears the code. *)
Lemma lookup_sound from_code to_code langs : forall objs,
    (forall l, fst objs = Some l -> code l = from_code) ->
    (forall l, snd objs = Some l -> code l = to_code) ->
    (forall l, fst (fold_left (lookup_step code from_code to_code) langs objs) = Some l ->
               code l = from_code)
    /\ (forall l, snd (fold_left (lookup_step code from_code to_code) langs objs) = Some l ->
                  code l = to_code).
Proof.
  induction langs as [|lang langs IH]; intros objs Hf Ht; simpl; [auto|].
  apply IH; unfold lookup_step;
    destruct (PyStr.eqb (code lang) from_code) eqn:E1;
    destruct (PyStr.eqb (code lang) to_code) eqn:E2; simpl; auto;
    intros l [= <-]; now apply pystr_eqb_eq.
Qed.

Lemma translate_text_not_installed text from_code to_code langs :
  get_installed_languages w = Returns langs ->
  (fst (lookup_languages code from_code to_code langs) = None
   \/ snd (lookup_languages code from_code to_code langs) = None) ->
  translate_text code w text from_code to_code
  = (Raises (translation_error_prefix ++ not_installed_message),
     [EGetInstalledLanguages]).
Proof.
  intros Hg Hl. unfold translate_text, call. rewrite Hg, bind_returns.
  destruct (lookup_languages code from_code to_code langs) as [[f|] [t|]];
    simpl in *; try reflexivity.
  destruct Hl; discriminate.
Qed.

(** C7 (amended).  When the installed languages are listed and at least
    one of the two codes is borne by none of them, translation raises the
    wrapped message that the packages of the pair are not installed, the
    same message whichever code is missing, and its only call was the
    listing of the installed languages: the runtime is asked for no
    translation and runs none. *)
Theorem C7_language_not_installed text from_code to_code langs :
  get_installed_languages w = Returns langs ->
  (Forall (fun lang => code lang <> from_code) langs
   \/ Forall (fun lang => code lang <> to_code) langs) ->
  translate_text code w text from_code to_code
  = (Raises (translation_error_prefix ++ not_installed_message),
     [EGetInstalledLanguages])
  /\ Forall (fun e => is_translation_call e = false)
            (snd (translate_text code w text from_code to_code)).
Proof.
  intros Hg Hl.
  assert (H : translate_text code w text from_code to_code
              = (Raises (translation_error_prefix ++ not_installed_message),
                 [EGetInstalledLanguages])).
  { apply translate_text_not_installed with (langs := langs); auto.
    unfold lookup_languages. destruct Hl as [Hl|Hl].
    - left. now rewrite lookup_from_absent.
    - right. now rewrite lookup_to_absent. }
  rewrite H. split; [reflexivity|]. repeat constructor.
Qed.

(** C8 (amended).  When both codes resolve to installed languages and the
    runtime has no translation between the two (its lookup gives [None]),
    translation raises: calling [translate] on the missing translation
    fails, and the failure is wrapped like any failure of the translation
    step.  The message differs from the not-installed message.  The trace
    shows the listing and the one lookup between the two languages: no
    translation is run and no other pair is tried. *)
Theorem C8_no_direct_path text from_code to_code langs from_lang_obj to_lang_obj :
  get_installed_languages w = Returns langs ->
  lookup_languages code from_code to_code langs
  = (Some from_lang_obj, Some to_lang_obj) ->
  get_translation w from_lang_obj to_lang_obj = Returns None ->
  translate_text code w text from_code to_code
  = (Raises (translation_error_prefix ++ none_translate_message),
     [EGetInstalledLanguages; EGetTranslation from_lang_obj to_lang_obj])
  /\ translation_error_prefix ++ none_translate_message
     <> translation_error_prefix ++ not_installed_message
  /\ code from_lang_obj = from_code /\ code to_lang_obj = to_code.
Proof.
  intros Hg Hl Hn. split; [|split].
  - unfold translate_text, call. rewrite Hg, bind_returns, Hl, Hn. reflexivity.
  - discriminate.
  - destruct (@lookup_sound from_code to_code langs (None, None)) as [Hf Ht];
      try discriminate.
    unfold lookup_languages in Hl. rewrite Hl in Hf, Ht. simpl in *. auto.
Qed.

End TranslationFacts.

(** ** Rendering *)

(** The loop of [create_translated_pdf] adds to the story the paragraphs of
    the candidates it goes through. *)
Lemma fold_story_step (candidates : list pystr) : forall story,
  fold_left story_step candidates story
  = story ++ story_of_paragraphs
               (map PyStr.strip
                    (filter (fun c => PyStr.truthy (PyStr.strip c))
                            (map (PyStr.replace PyStr.LF PyStr.SP) candidates))).
Proof.
  induction candidates as [|c cs IH]; intros story; simpl.
  - now rewrite app_nil_r.
  - rewrite IH. unfold story_step.
    destruct (PyStr.truthy (PyStr.strip (PyStr.replace PyStr.LF PyStr.SP c)));
      simpl; [|reflexivity].
    now rewrite <- !app_assoc.
Qed.

Lemma make_story_paragraphs (text : pystr) :
  make_story text = story_of_paragraphs (surviving_paragraphs text).
Proof.
  unfold make_story, surviving_paragraphs, paragraph_candidates.
  now rewrite fold_story_step.
Qed.

(** The pieces of a split are made of characters of the string. *)
Lemma split_from_Forall (P : PyStr.char -> Prop) sep (s : pystr) :
  Forall P s ->
  forall skip cur, Forall P cur -> Forall (Forall P) (PyStr.split_from sep skip cur s).
Proof.
  induction 1 as [|c s Hc Hs IH]; intros skip cur Hcur; simpl.
  - constructor; [|constructor]. now apply Forall_rev.
  - destruct skip as [|k]; [|now apply IH].
    destruct (PyStr.starts_with sep (c :: s)).
    + constructor; [now apply Forall_rev | apply IH; constructor].
    + apply IH. now constructor.
Qed.

Lemma replace_blank (s : pystr) :
  blank s -> blank (PyStr.replace PyStr.LF PyStr.SP s).
Proof.
  unfold blank, PyStr.replace. intros H. apply Forall_map.
  eapply Forall_impl; [|exact H]. intros c Hc. simpl.
  now destruct (c =? PyStr.LF)%N.
Qed.

Lemma surviving_paragraphs_blank (text : pystr) :
  blank text -> surviving_paragraphs text = [].
Proof.
  intros H. unfold surviving_paragraphs, paragraph_candidates.
  assert (Hp : Forall blank (PyStr.split [PyStr.LF; PyStr.LF] text))
    by (apply split_from_Forall; [exact H | constructor]).
  induction Hp as [|c cs Hc _ IH]; simpl; [reflexivity|].
  now rewrite (strip_blank (replace_blank Hc)).
Qed.

(** C6.  The story handed to the renderer is, for every text, the one the
    design wording describes: the text is split on double line breaks, the
    line breaks left in a candidate become spaces, the candidates that trim
    to nothing are dropped, and each survivor gives its trimmed text as one
    paragraph followed by the spacer of height 12.  So "A\n\nB" gives the
    paragraphs "A" and "B", "A\nA2\n\nB" gives "A A2" and "B", and a blank
    text gives no paragraph at all. *)
Theorem C6_render_paragraphs :
  (forall (Image Language Translation : Type) (w : World Image Language Translation)
          text output_pdf_path,
      snd (create_translated_pdf w text output_pdf_path)
      = [EBuild output_pdf_path (story_of_paragraphs (surviving_paragraphs text))])
  /\ (forall text, make_story text = story_of_paragraphs (surviving_paragraphs text))
  /\ make_story (PyStr.lit "A" ++ [PyStr.LF; PyStr.LF] ++ PyStr.lit "B")
     = [Paragraph (PyStr.lit "A"); Spacer 1 12; Paragraph (PyStr.lit "B"); Spacer 1 12]
  /\ make_story (PyStr.lit "A" ++ [PyStr.LF] ++ PyStr.lit "A2"
                   ++ [PyStr.LF; PyStr.LF] ++ PyStr.lit "B")
     = [Paragraph (PyStr.lit "A A2"); Spacer 1 12; Paragraph (PyStr.lit "B"); Spacer 1 12]
  /\ (forall text, blank text -> make_story text = []).
Proof.
  split.
  { intros Image Language Translation w text out.
    unfold create_translated_pdf, call, try_except.
    rewrite make_story_paragraphs.
    now destruct (build w out (story_of_paragraphs (surviving_paragraphs text))). }
  split; [exact make_story_paragraphs|].
  split; [reflexivity|]. split; [reflexivity|].
  intros text H. now rewrite make_story_paragraphs, surviving_paragraphs_blank.
Qed.

(** ** The worker *)

Section WorkerFacts.

Variables Image Language Translation : Type.
Variable code : Language -> pystr.
Variable w : World Image Language Translation.

(** What follows the last checkpoint touches the progress bar no more. *)
Lemma after_success_returns output_pdf_path :
  fst (after_success w output_pdf_path) = Returns tt
  /\ reported (snd (after_success w output_pdf_path)) = [].
Proof.
  unfold after_success, call.
  destruct (read_page_count w output_pdf_path) as [n|e]; simpl.
  - destruct (1 <? n)%nat; simpl; auto.
  - auto.
Qed.

Lemma last_reported_snoc (tr : list (event Image Language Translation)) v tl d :
  reported tl = [] ->
  last (reported (tr ++ EProgress v :: tl)) d = v.
Proof.
  intros H. rewrite reported_app. simpl. rewrite H. apply last_last.
Qed.

Ltac last_reported :=
  unfold reported; repeat (rewrite flat_map_app; cbn [flat_map app]);
  rewrite ?app_nil_r; rewrite ?app_comm_cons, ?app_assoc; apply last_last.

(** In every run of the worker the trace is: the calls of the
    acquisition, then, if it returned, progress 50 at once; the calls of
    the translation, then, if it returned, progress 75 at once; the call
    of the renderer, then, if the document was written, progress 100.  As
    soon as a stage raises, nothing of the later stages is called: the
    error callable is scheduled and progress is set to 0.  The callable
    shows the message of the exception if Tk runs it in time and finds
    [e] unbound otherwise.  The last value the progress bar receives is
    100 after a complete run and 0 after a failed one, whatever the pages
    reported. *)
Theorem stage_checkpoints input_pdf_path source_lang target_lang output_pdf_path :
  let acq := extract_text_from_pdf w input_pdf_path (Some update_progress) in
  let run := process_translation code w input_pdf_path source_lang target_lang
                                 output_pdf_path in
  let failed e := [if error_box_in_time w then EShowError e else ECallbackNameError;
                   EProgress 0; EConfig translate_button NORMAL] in
  match fst acq with
  | Raises e =>
      snd run = snd acq ++ failed e
      /\ forall d, last (reported (snd run)) d = 0
  | Returns extracted_text =>
      let tra := translate_text code w extracted_text source_lang target_lang in
      match fst tra with
      | Raises e =>
          snd run = snd acq ++ EProgress 50 :: snd tra ++ failed e
          /\ forall d, last (reported (snd run)) d = 0
      | Returns translated_text =>
          let ren := create_translated_pdf w translated_text output_pdf_path in
          match fst ren with
          | Raises e =>
              snd run = snd acq ++ EProgress 50 :: snd tra
                          ++ EProgress 75 :: snd ren ++ failed e
              /\ forall d, last (reported (snd run)) d = 0
          | Returns _ =>
              snd run = snd acq ++ EProgress 50 :: snd tra
                          ++ EProgress 75 :: snd ren
                          ++ EProgress 100 :: snd (after_success w output_pdf_path)
                          ++ [EConfig translate_button NORMAL]
              /\ forall d, last (reported (snd run)) d = 100
          end
      end
  end.
Proof.
  cbv zeta. unfold process_translation, try_finally, show_error_callback.
  destruct (extract_text_from_pdf w input_pdf_path (Some update_progress))
    as [[extracted_text|e] tr1]; cbn [fst snd bind try_except];
    unfold update_progress, emit; cbn [fst snd bind try_except].
  2:{ split; [now rewrite <- app_assoc; destruct (error_box_in_time w)|].
      intros d; destruct (error_box_in_time w); last_reported. }
  destruct (translate_text code w extracted_text source_lang target_lang)
    as [[translated_text|e] tr2]; cbn [fst snd bind try_except app].
  2:{ split; [now rewrite <- !app_assoc; destruct (error_box_in_time w)|].
      intros d; destruct (error_box_in_time w); last_reported. }
  destruct (create_translated_pdf w translated_text output_pdf_path)
    as [[[]|e] tr3]; cbn [fst snd bind try_except app].
  2:{ split; [now rewrite <- !app_assoc; cbn [app]; rewrite <- !app_assoc;
                destruct (error_box_in_time w)|].
      intros d; destruct (error_box_in_time w); last_reported. }
  destruct (after_success_returns output_pdf_path) as [Hf Hr].
  destruct (after_success w output_pdf_path) as [o tr4]. simpl in Hf, Hr. subst o.
  cbn [fst snd app try_except]. split.
  - rewrite <- !app_assoc. cbn [app]. rewrite <- !app_assoc.
    cbn [app]. now rewrite <- !app_assoc.
  - intros d. unfold reported in Hr.
    unfold reported; repeat (rewrite flat_map_app; cbn [flat_map app]).
    rewrite Hr, ?app_nil_r. rewrite ?app_comm_cons, ?app_assoc. apply last_last.
Qed.

End WorkerFacts.

(** ** The properties on sample documents *)

(** C1, as first worded, fails on a scanned page whose rasterization comes
    back with no image: the iteration returns, yet the page's text is
    obtained from neither source. *)
Lemma C1_counterexample :
  fst (page_body world_empty_raster (PyStr.lit "in.pdf") (Some update_progress)
                 1 1 (page_of (Returns (Some []))) [])
  = Returns []
  /\ ~ page_text_obtained world_empty_raster (PyStr.lit "in.pdf")
         (Some update_progress) 1 1 (page_of (Returns (Some []))) [].
Proof.
  split; [reflexivity|].
  intros (t & H & _). vm_compute in H. injection H as H.
  destruct t; discriminate.
Qed.

Lemma C1_page_text_source_witness :
  page_body world_three_pages (PyStr.lit "in.pdf") (Some update_progress)
            3 2 (page_of (Returns (Some []))) (PyStr.lit "Uno" ++ [PyStr.LF])
  = (Returns ((PyStr.lit "Uno" ++ [PyStr.LF]) ++ PyStr.lit "Hola" ++ [PyStr.LF]),
     EExtractText 2 :: EConvertFromPath (PyStr.lit "in.pdf") 200 2 2
       :: EImageToString 2%nat
       :: snd (if_callback (Some update_progress) (progress_value world_three_pages 2 3))).
Proof.
  apply (proj2 (@C1_page_text_source nat pystr nat world_three_pages
                  (PyStr.lit "in.pdf") (Some update_progress) 3 2
                  (page_of (Returns (Some []))) (PyStr.lit "Uno" ++ [PyStr.LF])
                  (Some [])
                  (fun v => eq_refl) eq_refl))
    with (rest := []).
  - right. exists []. split; [reflexivity | constructor].
  - reflexivity.
  - reflexivity.
Defined.

Lemma C10_no_image_contributes_nothing_witness :
  page_body world_empty_raster (PyStr.lit "in.pdf") (Some update_progress)
            1 1 (page_of (Returns (Some []))) []
  = (Returns [],
     [EExtractText 1; EConvertFromPath (PyStr.lit "in.pdf") 200 1 1;
      EProgress (progress_value world_empty_raster 1 1)]).
Proof.
  apply (@C10_no_image_contributes_nothing nat pystr nat world_empty_raster
           (PyStr.lit "in.pdf") 1 1 (page_of (Returns (Some []))) [] (Some [])).
  - reflexivity.
  - right. exists []. split; [reflexivity | constructor].
  - reflexivity.
Defined.

Lemma C2_ocr_failure_is_fatal_witness :
  fst (extract_text_from_pdf world_ocr_fails (PyStr.lit "in.pdf")
                             (Some update_progress))
  = Raises (PyStr.lit
     "Error extracting text from PDF: Error during OCR on page 2: poppler missing").
Proof.
  apply (@C2_ocr_failure_is_fatal nat pystr nat world_ocr_fails
           (PyStr.lit "in.pdf") (Some update_progress)
           [page_of (Returns (Some (PyStr.lit "A")))] (page_of (Returns None)) []
           (PyStr.lit "A" ++ [PyStr.LF])
           [EExtractText 1; EProgress (progress_value world_ocr_fails 1 2)]
           None (PyStr.lit "poppler missing")).
  - reflexivity.
  - reflexivity.
  - reflexivity.
  - left. reflexivity.
  - left. reflexivity.
Defined.

Lemma C3_blank_document_is_no_text_witness :
  extract_text_from_pdf world_blank (PyStr.lit "in.pdf") (Some update_progress)
  = (Raises no_text_message,
     [EOpen (PyStr.lit "in.pdf"); EExtractText 1;
      EConvertFromPath (PyStr.lit "in.pdf") 200 1 1; EImageToString 0%nat;
      EProgress (progress_value world_blank 1 1)]).
Proof.
  apply (proj1 (@C3_blank_document_is_no_text nat pystr nat world_blank
                  (PyStr.lit "in.pdf") (Some update_progress)))
    with (pages := [page_of (Returns None)]) (text := PyStr.lit " " ++ [PyStr.LF]).
  - reflexivity.
  - reflexivity.
  - repeat constructor.
Defined.

Lemma C4_acquisition_progress_witness :
  map Qred
      (reported (snd (extract_text_from_pdf world_three_pages (PyStr.lit "in.pdf")
                                            (Some update_progress))))
  = [2345624805922133 # 140737488355328; 2345624805922133 # 70368744177664; 50]
  /\ page_marks (snd (extract_text_from_pdf world_ocr_fails (PyStr.lit "in.pdf")
                                            (Some update_progress)))
     = [EExtractText 1; EProgress (progress_value world_ocr_fails 1 2);
        EExtractText 2].
Proof.
  split.
  - rewrite (proj1 (@C4_acquisition_progress nat pystr nat world_three_pages
                      (PyStr.lit "in.pdf")
                      [page_of (Returns (Some (PyStr.lit "Uno")));
                       page_of (Returns (Some []));
                       page_of (Returns (Some (PyStr.lit "Tres")))]
                      round_binary64_sound eq_refl)).
    vm_compute. reflexivity.
  - rewrite (proj1 (proj2 (@C4_acquisition_progress nat pystr nat world_ocr_fails
                             (PyStr.lit "in.pdf")
                             [page_of (Returns (Some (PyStr.lit "A")));
                              page_of (Returns None)]
                             round_binary64_sound eq_refl))).
    reflexivity.
Defined.

(** C5.  The checkpoints hold in every run, but the error is not always
    surfaced.  The document is one scanned page on which recognition finds
    only a space, so the acquisition raises the no-text message; Tk runs
    the error callable after the worker has left the [except] block.  The
    callable then finds [e] unbound: progress is reset to 0 and the
    Translate button is given back, and no error box is shown at all. *)
Theorem C5_error_not_surfaced :
  let run := process_translation sample_code world_blank_late (PyStr.lit "in.pdf")
                                 (PyStr.lit "es") (PyStr.lit "en")
                                 (PyStr.lit "translated.pdf") in
  fst (extract_text_from_pdf world_blank_late (PyStr.lit "in.pdf")
                             (Some update_progress))
  = Raises no_text_message
  /\ snd run
     = [EOpen (PyStr.lit "in.pdf"); EExtractText 1;
        EConvertFromPath (PyStr.lit "in.pdf") 200 1 1; EImageToString 0%nat;
        EProgress (progress_value world_blank_late 1 1);
        ECallbackNameError; EProgress 0; EConfig translate_button NORMAL]
  /\ error_boxes (snd run) = [].
Proof.
  cbv zeta. split; [reflexivity|]. split; reflexivity.
Qed.

Lemma C9_direct_text_never_rasterizes_witness :
  Forall (fun e => is_ocr_event e = false)
         (snd (extract_text_from_pdf world_all_direct (PyStr.lit "in.pdf")
                                     (Some update_progress))).
Proof.
  apply (@C9_direct_text_never_rasterizes nat pystr nat world_all_direct
           (PyStr.lit "in.pdf") (Some update_progress)
           [page_of (Returns (Some (PyStr.lit "Uno")));
            page_of (Returns (Some (PyStr.lit "Dos")))]).
  - reflexivity.
  - repeat constructor.
    + exists (PyStr.lit "Uno"). split; [reflexivity|].
      intros H. inversion H. discriminate.
    + exists (PyStr.lit "Dos"). split; [reflexivity|].
      intros H. inversion H. discriminate.
  - intros v. repeat constructor.
Defined.

(** C7, as first worded, fails: with English and Korean installed, asking
    for "xx" to "en" raises a message that does not contain "xx". *)
Lemma C7_counterexample :
  exists msg,
    fst (translate_text sample_code world_no_path (PyStr.lit "hola")
                        (PyStr.lit "xx") (PyStr.lit "en"))
    = Raises msg
    /\ PyStr.contains (PyStr.lit "xx") msg = false.
Proof.
  eexists. split; reflexivity.
Qed.

Lemma C7_language_not_installed_witness :
  translate_text sample_code world_no_path (PyStr.lit "hola")
                 (PyStr.lit "xx") (PyStr.lit "en")
  = (Raises (translation_error_prefix ++ not_installed_message),
     [EGetInstalledLanguages]).
Proof.
  apply (@C7_language_not_installed nat pystr nat sample_code world_no_path
           (PyStr.lit "hola") (PyStr.lit "xx") (PyStr.lit "en")
           [PyStr.lit "en"; PyStr.lit "ko"]).
  - reflexivity.
  - left. repeat constructor; discriminate.
Defined.

(** C8, as first worded, fails: the error raised when English and Korean
    are installed without a translation between them is the very error
    raised when the translation exists and the runtime fails with the same
    cause, so it is not of a kind apart from a runtime failure. *)
Lemma C8_counterexample :
  get_translation world_no_path (PyStr.lit "en") (PyStr.lit "ko") = Returns None
  /\ get_translation world_runtime_failure (PyStr.lit "en") (PyStr.lit "ko")
     = Returns (Some 0%nat)
  /\ translate world_runtime_failure 0%nat (PyStr.lit "hola")
     = Raises none_translate_message
  /\ fst (translate_text sample_code world_no_path (PyStr.lit "hola")
                         (PyStr.lit "en") (PyStr.lit "ko"))
     = fst (translate_text sample_code world_runtime_failure (PyStr.lit "hola")
                           (PyStr.lit "en") (PyStr.lit "ko")).
Proof.
  repeat split.
Qed.

Lemma C8_no_direct_path_witness :
  translate_text sample_code world_no_path (PyStr.lit "hola")
                 (PyStr.lit "en") (PyStr.lit "ko")
  = (Raises (translation_error_prefix ++ none_translate_message),
     [EGetInstalledLanguages; EGetTranslation (PyStr.lit "en") (PyStr.lit "ko")]).
Proof.
  apply (@C8_no_direct_path nat pystr nat sample_code world_no_path
           (PyStr.lit "hola") (PyStr.lit "en") (PyStr.lit "ko")
           [PyStr.lit "en"; PyStr.lit "ko"] (PyStr.lit "en") (PyStr.lit "ko")).
  - reflexivity.
  - reflexivity.
  - reflexivity.
Defined.

Lemma C6_render_paragraphs_witness :
  make_story (PyStr.lit "  " ++ [PyStr.LF; PyStr.LF; PyStr.LF] ++ PyStr.lit " ") = [].
Proof.
  apply (proj2 (proj2 (proj2 (proj2 C6_render_paragraphs)))).
  repeat constructor.
Defined.

(** * Further properties of the pipeline *)

(** ** The extracted text *)

Section AcquisitionMore.

Variables Image Language Translation : Type.
Variable w : World Image Language Translation.

Lemma page_body_returns_contribution pdf_path cb N i page text text' :
  fst (page_body w pdf_path cb N i page text) = Returns text' ->
  text' = text ++ page_contribution w pdf_path i page.
Proof.
  unfold page_body, ocr_fallback, page_contribution, call.
  destruct (extract_text page) as [r|e]; [|discriminate].
  rewrite bind_returns. cbn [fst].
  destruct (if_callback cb (progress_value w i N)) as [[[]|e'] trc].
  - destruct (has_text r); [simpl; now intros [= <-]|].
    destruct (convert_from_path w pdf_path 200 i i) as [[|image0 rest]|e];
      simpl; try discriminate.
    + intros [= <-]. now rewrite app_nil_r.
    + destruct (image_to_string w image0) as [t|e]; simpl; [|discriminate].
      now intros [= <-].
  - destruct (has_text r); [simpl; discriminate|].
    destruct (convert_from_path w pdf_path 200 i i) as [[|image0 rest]|e];
      simpl; try discriminate.
    destruct (image_to_string w image0) as [t|e]; simpl; discriminate.
Qed.

Lemma page_loop_returns_contributions pdf_path cb N pages : forall i text text',
  fst (page_loop w pdf_path cb N i pages text) = Returns text' ->
  text' = text ++ contributions w pdf_path i pages.
Proof.
  induction pages as [|page pages IH]; intros i text text'; cbn [page_loop contributions].
  - intros [= <-]. now rewrite app_nil_r.
  - rewrite fst_bind.
    destruct (fst (page_body w pdf_path cb N i page text)) as [t1|e] eqn:E;
      [|discriminate].
    intros H. apply IH in H. apply page_body_returns_contribution in E.
    subst. now rewrite app_assoc.
Qed.

(** The text [extract_text_from_pdf] returns is the concatenation, in page
    order, of what each page contributes: nothing of the callback or of the
    document beyond the pages' texts enters it, and no page is reordered. *)
Theorem extracted_text_is_concatenation pdf_path cb pages text :
  open_pdf w pdf_path = Returns pages ->
  fst (extract_text_from_pdf w pdf_path cb) = Returns text ->
  text = contributions w pdf_path 1 pages.
Proof.
  intros Ho. rewrite (@extract_text_from_pdf_opened _ _ _ w pdf_path cb pages Ho).
  destruct (page_loop w pdf_path cb (List.length pages) 1 pages [])
    as [[t|e] tr] eqn:E; cbn [fst]; [|discriminate].
  destruct (PyStr.truthy (PyStr.strip t)); [|discriminate].
  intros [= <-].
  apply (page_loop_returns_contributions pdf_path cb (List.length pages) pages 1 []).
  now rewrite E.
Qed.

Lemma page_loop_direct pdf_path cb N texts : forall i text,
  callback_returns cb ->
  Forall (fun t => ~ blank t) texts ->
  fst (page_loop w pdf_path cb N i
                 (map (fun t => page_of (Returns (Some t))) texts) text)
  = Returns (text ++ List.concat (map (fun t => t ++ [PyStr.LF]) texts)).
Proof.
  induction texts as [|t texts IH]; intros i text Hcb Ht; cbn [map page_loop List.concat].
  - now rewrite app_nil_r.
  - inversion Ht as [|? ? Ht1 Ht2]; subst.
    rewrite fst_bind.
    rewrite (@page_body_direct _ _ _ w pdf_path cb N i (page_of (Returns (Some t)))
               text t Hcb eq_refl Ht1).
    cbn [fst]. rewrite IH by assumption. now rewrite <- !app_assoc.
Qed.

(** A document of at least one page whose pages all carry a text that is
    not blank is acquired without fail: the result is the pages' texts in
    order, each followed by one line break. *)
Theorem direct_document_text pdf_path cb texts :
  open_pdf w pdf_path = Returns (map (fun t => page_of (Returns (Some t))) texts) ->
  texts <> [] ->
  Forall (fun t => ~ blank t) texts ->
  callback_returns cb ->
  fst (extract_text_from_pdf w pdf_path cb)
  = Returns (List.concat (map (fun t => t ++ [PyStr.LF]) texts)).
Proof.
  intros Ho Hne Ht Hcb.
  rewrite (@extract_text_from_pdf_opened _ _ _ w pdf_path cb _ Ho).
  pose proof (page_loop_direct pdf_path (List.length
                 (map (fun t => page_of (Returns (Some t))) texts)) 1 [] Hcb Ht) as H.
  destruct (page_loop w pdf_path cb _ 1 _ []) as [[t|e] tr]; cbn [fst] in *;
    [|discriminate].
  injection H as ->. cbn [app].
  destruct (PyStr.truthy (PyStr.strip _)) eqn:E; [reflexivity|].
  exfalso. apply truthy_false, strip_nil_iff in E.
  destruct texts as [|t0 texts]; [congruence|].
  inversion Ht as [|? ? Ht1 _]; subst. apply Ht1.
  cbn [map List.concat] in E. unfold blank in E.
  rewrite <- app_assoc in E. now apply Forall_app in E.
Qed.

(** When [extract_text] itself raises on a page reached after the pages
    before it went through, the acquisition raises the wrapped cause: the
    page is not rasterized and no later page is touched. *)
Theorem extraction_raise_is_fatal pdf_path cb pre page post text tr cause :
  open_pdf w pdf_path = Returns (pre ++ page :: post) ->
  page_loop w pdf_path cb (List.length (pre ++ page :: post)) 1 pre []
  = (Returns text, tr) ->
  extract_text page = Raises cause ->
  extract_text_from_pdf w pdf_path cb
  = (Raises (extract_error_prefix ++ cause),
     EOpen pdf_path :: tr ++ [EExtractText (S (List.length pre))]).
Proof.
  intros Ho Hpre He.
  rewrite (@extract_text_from_pdf_opened _ _ _ w pdf_path cb _ Ho).
  rewrite page_loop_app, Hpre, bind_returns. cbn [page_loop].
  unfold page_body, call. rewrite He. reflexivity.
Qed.

End AcquisitionMore.

(** ** The worker and the window *)

Section WorkerMore.

Variables Image Language Translation : Type.
Variable code : Language -> pystr.
Variable w : World Image Language Translation.

Lemma page_body_no_shell_event pdf_path N i page text :
  Forall (fun e => is_shell_event e = false)
         (snd (page_body w pdf_path (Some update_progress) N i page text)).
Proof.
  unfold page_body, ocr_fallback, call.
  destruct (extract_text page) as [r|e]; [|repeat constructor].
  rewrite bind_returns. destruct (has_text r); [repeat constructor|].
  destruct (convert_from_path w pdf_path 200 i i) as [[|image0 rest]|e];
    try (repeat constructor).
  simpl. destruct (image_to_string w image0); repeat constructor.
Qed.

Lemma page_loop_no_shell_event pdf_path N pages : forall i text,
  Forall (fun e => is_shell_event e = false)
         (snd (page_loop w pdf_path (Some update_progress) N i pages text)).
Proof.
  induction pages as [|page pages IH]; intros i text; cbn [page_loop].
  - constructor.
  - rewrite snd_bind. apply Forall_app. split.
    + apply page_body_no_shell_event.
    + destruct (fst (page_body w pdf_path (Some update_progress) N i page text));
        [apply IH | constructor].
Qed.

(** The three stages leave the window alone, the progress bar apart. *)
Lemma acquisition_no_shell_event pdf_path :
  Forall (fun e => is_shell_event e = false)
         (snd (extract_text_from_pdf w pdf_path (Some update_progress))).
Proof.
  unfold extract_text_from_pdf, call.
  destruct (open_pdf w pdf_path) as [pages|e]; [|repeat constructor].
  rewrite bind_returns.
  pose proof (page_loop_no_shell_event pdf_path (List.length pages) pages 1 []) as H.
  destruct (page_loop w pdf_path (Some update_progress) (List.length pages) 1 pages [])
    as [[t|e] tr]; cbn [fst snd try_except bind raise app] in *.
  - destruct (PyStr.truthy (PyStr.strip t)); cbn; rewrite app_nil_r;
      constructor; auto.
  - rewrite app_nil_r. constructor; auto.
Qed.

Lemma translation_no_shell_event text source_lang target_lang :
  Forall (fun e => is_shell_event e = false)
         (snd (translate_text code w text source_lang target_lang)).
Proof.
  unfold translate_text, call.
  destruct (get_installed_languages w) as [langs|e]; [|repeat constructor].
  rewrite bind_returns.
  destruct (lookup_languages code source_lang target_lang langs) as [[f|] [t|]];
    try (repeat constructor).
  destruct (get_translation w f t) as [[tr|]|e]; try (repeat constructor).
  simpl. destruct (translate w tr text); repeat constructor.
Qed.

Lemma rendering_no_shell_event text output_pdf_path :
  Forall (fun e => is_shell_event e = false)
         (snd (create_translated_pdf w text output_pdf_path)).
Proof.
  unfold create_translated_pdf, call.
  destruct (build w output_pdf_path (make_story text)) as [[]|e]; repeat constructor.
Qed.

Lemma not_in_stage (tr : list (event Image Language Translation)) x :
  Forall (fun e => is_shell_event e = false) tr ->
  is_shell_event x = true -> ~ In x tr.
Proof.
  intros H Hx Hin. rewrite Forall_forall in H. apply H in Hin. congruence.
Qed.

(** What raises in a stage says which stage it was. *)
Lemma acquisition_messages pdf_path cb msg :
  fst (extract_text_from_pdf w pdf_path cb) = Raises msg ->
  msg = no_text_message \/ exists e, msg = extract_error_prefix ++ e.
Proof.
  unfold extract_text_from_pdf. rewrite fst_bind.
  destruct (bind (call (EOpen pdf_path) (open_pdf w pdf_path)) _) as [[t|e] tr];
    cbn [try_except fst raise].
  - destruct (PyStr.truthy (PyStr.strip t)); [discriminate|].
    intros [= <-]. now left.
  - intros [= <-]. right. now exists e.
Qed.

Lemma translation_messages text source_lang target_lang msg :
  fst (translate_text code w text source_lang target_lang) = Raises msg ->
  exists e, msg = translation_error_prefix ++ e.
Proof.
  unfold translate_text.
  destruct (bind (call EGetInstalledLanguages (get_installed_languages w)) _)
    as [[t|e] tr]; cbn [try_except fst raise]; [discriminate|].
  intros [= <-]. now exists e.
Qed.

Lemma rendering_messages text output_pdf_path msg :
  fst (create_translated_pdf w text output_pdf_path) = Raises msg ->
  exists e, msg = render_error_prefix ++ e.
Proof.
  unfold create_translated_pdf.
  destruct (call _ _) as [[t|e] tr]; cbn [try_except fst raise]; [discriminate|].
  intros [= <-]. now exists e.
Qed.

Lemma after_success_events output_pdf_path :
  error_boxes (snd (after_success w output_pdf_path)) = []
  /\ In (EShowInfo (PyStr.lit "Translated PDF saved as " ++ output_pdf_path))
        (snd (after_success w output_pdf_path))
  /\ In (EConfig save_button NORMAL) (snd (after_success w output_pdf_path)).
Proof.
  unfold after_success, call.
  destruct (read_page_count w output_pdf_path) as [n|e]; simpl.
  - destruct (1 <? n)%nat; simpl; intuition.
  - intuition.
Qed.

Ltac stage_in H :=
  rewrite ?in_app_iff in H; cbn [In] in H;
  repeat match type of H with
         | _ \/ _ => destruct H as [H|H]
         end;
  try discriminate; try contradiction;
  try (eapply not_in_stage; [| |exact H]; [eassumption | reflexivity]).

(** Every run of the worker comes to its end without raising and its last
    act gives the Translate button back; the Save button is enabled in the
    run exactly when the three stages all returned. *)
Theorem worker_buttons input_pdf_path source_lang target_lang output_pdf_path :
  fst (process_translation code w input_pdf_path source_lang target_lang
                           output_pdf_path) = Returns tt
  /\ (forall d,
        last (snd (process_translation code w input_pdf_path source_lang target_lang
                                       output_pdf_path)) d
        = EConfig translate_button NORMAL)
  /\ (In (EConfig save_button NORMAL)
         (snd (process_translation code w input_pdf_path source_lang target_lang
                                   output_pdf_path))
      <-> run_succeeds code w input_pdf_path source_lang target_lang output_pdf_path
          = true).
Proof.
  unfold process_translation, try_finally, run_succeeds, show_error_callback.
  cbn [fst snd].
  split; [|split; [intros d; apply last_last|]].
  - destruct (extract_text_from_pdf w input_pdf_path (Some update_progress))
      as [[t1|e] tr1]; [|reflexivity].
    cbn [bind]. unfold update_progress, emit. cbn [bind].
    destruct (translate_text code w t1 source_lang target_lang) as [[t2|e] tr2];
      cbn [bind]; [|reflexivity].
    destruct (create_translated_pdf w t2 output_pdf_path) as [[[]|e] tr3];
      cbn [bind]; [|reflexivity].
    destruct (after_success_returns w output_pdf_path) as [Hf _].
    destruct (after_success w output_pdf_path) as [o tr4]. simpl in Hf. now subst.
  - pose proof (acquisition_no_shell_event input_pdf_path) as H1.
    destruct (extract_text_from_pdf w input_pdf_path (Some update_progress))
      as [[t1|e] tr1]; cbn [fst snd bind try_except] in *.
    2:{ unfold update_progress, emit. cbn [bind snd].
        destruct (error_box_in_time w);
          (split; [intros H; exfalso; stage_in H | discriminate]). }
    pose proof (translation_no_shell_event t1 source_lang target_lang) as H2.
    unfold update_progress, emit. cbn [bind].
    destruct (translate_text code w t1 source_lang target_lang) as [[t2|e] tr2];
      cbn [fst snd bind try_except] in *.
    2:{ destruct (error_box_in_time w);
          (split; [intros H; exfalso; stage_in H | discriminate]). }
    pose proof (rendering_no_shell_event t2 output_pdf_path) as H3.
    destruct (create_translated_pdf w t2 output_pdf_path) as [[[]|e] tr3];
      cbn [fst snd bind try_except] in *.
    2:{ destruct (error_box_in_time w);
          (split; [intros H; exfalso; stage_in H | discriminate]). }
    destruct (after_success_events output_pdf_path) as (_ & _ & Hs).
    destruct (after_success_returns w output_pdf_path) as [Hf _].
    destruct (after_success w output_pdf_path) as [o tr4].
    cbn [fst snd try_except] in *. subst o. cbn [snd].
    split; [reflexivity|]. intros _.
    repeat (rewrite in_app_iff; cbn [In]). tauto.
Qed.

Lemma reports_app (a b : list (event Image Language Translation)) :
  reports (a ++ b) = reports a ++ reports b.
Proof. apply filter_app. Qed.

Lemma reports_stage (tr : list (event Image Language Translation)) :
  Forall (fun e => is_shell_event e = false) tr -> reports tr = [].
Proof.
  induction 1 as [|e tr He _ IH]; [reflexivity|].
  destruct e; simpl in *; try discriminate; exact IH.
Qed.

Lemma after_success_reports output_path :
  reports (snd (after_success w output_path))
  = [EShowInfo (PyStr.lit "Translated PDF saved as " ++ output_path);
     EDisplayTranslatedPreview 1].
Proof.
  unfold after_success, call.
  destruct (read_page_count w output_path) as [n|e]; simpl.
  - destruct (1 <? n)%nat; reflexivity.
  - reflexivity.
Qed.

(** The calls and drawings of the preview of a page of the translated
    document. *)
Lemma display_translated_preview_trace (a : App Image) page :
  snd (display_translated_preview w a page)
  = SCall (EConvertFromPath (output_pdf_path a) 100 page page)
      :: match convert_from_path w (output_pdf_path a) 100 page page with
         | Returns (img :: _) =>
             [SDraw translated_panel img;
              SPageLabel translated_panel
                         (page_label_text page (translated_total_pages a))]
         | Returns [] =>
             [SCall (EShowError (PyStr.lit "Translated preview: "
                                   ++ preview_error_prefix ++ no_pages_message))]
         | Raises cause =>
             [SCall (EShowError (PyStr.lit "Translated preview: "
                                   ++ preview_error_prefix ++ cause))]
         end.
Proof.
  unfold display_translated_preview, get_pdf_preview_image, call.
  destruct (convert_from_path w (output_pdf_path a) 100 page page)
    as [[|img rest]|cause]; reflexivity.
Qed.

Ltac stage_reports :=
  unfold reports in *;
  repeat match goal with
         | H : Forall (fun e => is_shell_event e = false) _ |- _ =>
             apply reports_stage in H; unfold reports in H
         end;
  repeat first [rewrite filter_app | progress cbn [filter is_report_event app]];
  repeat match goal with
         | H : filter _ _ = [] |- _ => rewrite H; clear H
         end;
  rewrite ?app_nil_r; cbn [app].

(** What a run reports to the user.  When a stage raises, the worker
    schedules the error callable, once, and neither the success box nor the
    preview.  The callable shows the message of the exception if Tk runs it
    in time; otherwise it finds [e] unbound and shows nothing.  The message
    is the one the failing stage raised: the no-text message or a message
    behind the extraction prefix for the acquisition, a message behind the
    translation prefix for the translation, a message behind the rendering
    prefix for the rendering.  After a complete run the worker schedules
    the success box, which names the output file, then the preview of
    page 1 of the translated document, and no error callable; the preview
    rasterizes the output and shows an error box of its own when there is
    no image or the rasterization raises. *)
Theorem worker_report input_path source_lang target_lang output_path :
  let run := process_translation code w input_path source_lang target_lang
                                 output_path in
  let acq := extract_text_from_pdf w input_path (Some update_progress) in
  let error_callback e :=
    if error_box_in_time w then EShowError e else ECallbackNameError in
  match fst acq with
  | Raises e =>
      reports (snd run) = [error_callback e]
      /\ (e = no_text_message \/ exists cause, e = extract_error_prefix ++ cause)
  | Returns extracted_text =>
      match fst (translate_text code w extracted_text source_lang target_lang) with
      | Raises e =>
          reports (snd run) = [error_callback e]
          /\ exists cause, e = translation_error_prefix ++ cause
      | Returns translated_text =>
          match fst (create_translated_pdf w translated_text output_path) with
          | Raises e =>
              reports (snd run) = [error_callback e]
              /\ exists cause, e = render_error_prefix ++ cause
          | Returns _ =>
              reports (snd run)
              = [EShowInfo (PyStr.lit "Translated PDF saved as " ++ output_path);
                 EDisplayTranslatedPreview 1]
              /\ forall a : App Image,
                  snd (display_translated_preview w a 1)
                  = SCall (EConvertFromPath (output_pdf_path a) 100 1 1)
                      :: match convert_from_path w (output_pdf_path a) 100 1 1 with
                         | Returns (img :: _) =>
                             [SDraw translated_panel img;
                              SPageLabel translated_panel
                                (page_label_text 1 (translated_total_pages a))]
                         | Returns [] =>
                             [SCall (EShowError
                                       (PyStr.lit "Translated preview: "
                                          ++ preview_error_prefix ++ no_pages_message))]
                         | Raises cause =>
                             [SCall (EShowError
                                       (PyStr.lit "Translated preview: "
                                          ++ preview_error_prefix ++ cause))]
                         end
          end
      end
  end.
Proof.
  cbv zeta.
  unfold process_translation, try_finally, show_error_callback. cbn [fst snd].
  pose proof (acquisition_no_shell_event input_path) as H1.
  pose proof (@acquisition_messages input_path (Some update_progress)) as M1.
  destruct (extract_text_from_pdf w input_path (Some update_progress))
    as [[t1|e] tr1]; cbn [fst snd bind try_except] in *;
    unfold update_progress, emit; cbn [bind snd].
  2:{ split; [|exact (M1 e eq_refl)].
      destruct (error_box_in_time w); now stage_reports. }
  clear M1.
  pose proof (translation_no_shell_event t1 source_lang target_lang) as H2.
  pose proof (@translation_messages t1 source_lang target_lang) as M2.
  destruct (translate_text code w t1 source_lang target_lang) as [[t2|e] tr2];
    cbn [fst snd bind try_except] in *.
  2:{ split; [|exact (M2 e eq_refl)].
      destruct (error_box_in_time w); now stage_reports. }
  clear M2.
  pose proof (rendering_no_shell_event t2 output_path) as H3.
  pose proof (@rendering_messages t2 output_path) as M3.
  destruct (create_translated_pdf w t2 output_path) as [[[]|e] tr3];
    cbn [fst snd bind try_except] in *.
  2:{ split; [|exact (M3 e eq_refl)].
      destruct (error_box_in_time w); now stage_reports. }
  clear M3.
  pose proof (after_success_reports output_path) as Hr.
  destruct (after_success_returns w output_path) as [Hf _].
  destruct (after_success w output_path) as [o tr4].
  cbn [fst snd try_except] in *. subst o. cbn [snd]. split.
  - stage_reports. rewrite Hr. reflexivity.
  - intros a. apply display_translated_preview_trace.
Qed.

End WorkerMore.

(** ** The language lookup *)

Section TranslationMore.

Variables Image Language Translation : Type.
Variable code : Language -> pystr.
Variable w : World Image Language Translation.

Lemma lookup_last_from from_code to_code pre lang post :
  code lang = from_code ->
  Forall (fun l => code l <> from_code) post ->
  fst (lookup_languages code from_code to_code (pre ++ lang :: post)) = Some lang.
Proof.
  intros Hc Hp. unfold lookup_languages.
  rewrite fold_left_app. cbn [fold_left].
  rewrite (lookup_from_absent code to_code Hp).
  unfold lookup_step. rewrite (proj2 (pystr_eqb_eq _ _) Hc).
  now destruct (PyStr.eqb (code lang) to_code).
Qed.

Lemma lookup_last_to from_code to_code pre lang post :
  code lang = to_code ->
  Forall (fun l => code l <> to_code) post ->
  snd (lookup_languages code from_code to_code (pre ++ lang :: post)) = Some lang.
Proof.
  intros Hc Hp. unfold lookup_languages.
  rewrite fold_left_app. cbn [fold_left].
  rewrite (lookup_to_absent code from_code Hp).
  unfold lookup_step. rewrite (proj2 (pystr_eqb_eq _ _) Hc).
  now destruct (PyStr.eqb (code lang) from_code).
Qed.

(** When both codes are borne by installed languages, [translate_text]
    takes for each code the last language of the list that bears it, asks
    the runtime once for the translation between the two and, given one,
    runs it once on the whole text: the result is the runtime's, and a
    failure of the lookup or of the run is raised behind the translation
    prefix. *)
Theorem translation_between_last_bearers
        text from_code to_code langs pre1 from_lang post1 pre2 to_lang post2 :
  get_installed_languages w = Returns langs ->
  langs = pre1 ++ from_lang :: post1 ->
  code from_lang = from_code ->
  Forall (fun l => code l <> from_code) post1 ->
  langs = pre2 ++ to_lang :: post2 ->
  code to_lang = to_code ->
  Forall (fun l => code l <> to_code) post2 ->
  translate_text code w text from_code to_code
  = match get_translation w from_lang to_lang with
    | Returns (Some tr) =>
        match translate w tr text with
        | Returns translated =>
            (Returns translated,
             [EGetInstalledLanguages; EGetTranslation from_lang to_lang;
              ETranslate tr text])
        | Raises e =>
            (Raises (translation_error_prefix ++ e),
             [EGetInstalledLanguages; EGetTranslation from_lang to_lang;
              ETranslate tr text])
        end
    | Returns None =>
        (Raises (translation_error_prefix ++ none_translate_message),
         [EGetInstalledLanguages; EGetTranslation from_lang to_lang])
    | Raises e =>
        (Raises (translation_error_prefix ++ e),
         [EGetInstalledLanguages; EGetTranslation from_lang to_lang])
    end.
Proof.
  intros Hg H1 Hc1 Hp1 H2 Hc2 Hp2.
  pose proof (@lookup_last_from from_code to_code pre1 from_lang post1 Hc1 Hp1) as Hf.
  pose proof (@lookup_last_to from_code to_code pre2 to_lang post2 Hc2 Hp2) as Ht.
  rewrite <- H1 in Hf. rewrite <- H2 in Ht.
  unfold translate_text, call. rewrite Hg, bind_returns.
  destruct (lookup_languages code from_code to_code langs) as [f t].
  cbn [fst snd] in Hf, Ht. subst f t.
  destruct (get_translation w from_lang to_lang) as [[tr|]|e]; [|reflexivity|reflexivity].
  simpl. destruct (translate w tr text); reflexivity.
Qed.

End TranslationMore.

(** ** The paragraphs of the rendered document *)

Lemma lstrip_decompose (s : pystr) :
  exists ws, s = ws ++ PyStr.lstrip s /\ blank ws.
Proof.
  induction s as [|c s (ws & E & Hws)]; simpl.
  - exists []. split; [reflexivity | constructor].
  - destruct (PyStr.isspace c) eqn:Hc.
    + exists (c :: ws). split; [simpl; congruence | now constructor].
    + exists []. split; [reflexivity | constructor].
Qed.

(** Trimming takes blank ends off and nothing else. *)
Lemma strip_decompose (s : pystr) :
  exists a b, s = a ++ PyStr.strip s ++ b /\ blank a /\ blank b.
Proof.
  destruct (lstrip_decompose s) as (a & Ea & Ha).
  destruct (lstrip_decompose (rev (PyStr.lstrip s))) as (b & Eb & Hb).
  exists a, (rev b). split; [|split; [exact Ha | now apply Forall_rev]].
  unfold PyStr.strip, PyStr.rstrip.
  rewrite <- rev_app_distr, <- Eb, rev_involutive. exact Ea.
Qed.

Lemma lstrip_fixed (s : pystr) :
  (forall c r, s = c :: r -> PyStr.isspace c = false) -> PyStr.lstrip s = s.
Proof.
  destruct s as [|c r]; [reflexivity|]. intros H. simpl.
  now rewrite (H c r eq_refl).
Qed.

Lemma strip_ends (s : pystr) :
  (forall c r, PyStr.strip s = c :: r -> PyStr.isspace c = false)
  /\ (forall c r, rev (PyStr.strip s) = c :: r -> PyStr.isspace c = false).
Proof.
  split; intros c r H.
  - destruct (lstrip_decompose (rev (PyStr.lstrip s))) as (b & Eb & Hb).
    apply (f_equal (@rev _)) in Eb. rewrite rev_involutive, rev_app_distr in Eb.
    change (rev (PyStr.lstrip (rev (PyStr.lstrip s)))) with (PyStr.strip s) in Eb.
    rewrite H in Eb. simpl in Eb. now apply lstrip_head in Eb.
  - unfold PyStr.strip, PyStr.rstrip in H. rewrite rev_involutive in H.
    now apply lstrip_head in H.
Qed.

Lemma strip_idempotent (s : pystr) : PyStr.strip (PyStr.strip s) = PyStr.strip s.
Proof.
  destruct (strip_ends s) as [Hh Hl].
  unfold PyStr.strip at 1. unfold PyStr.rstrip.
  rewrite (lstrip_fixed Hh), (lstrip_fixed Hl). apply rev_involutive.
Qed.

Lemma paragraph_texts_story (ps : list pystr) :
  paragraph_texts (story_of_paragraphs ps) = ps.
Proof.
  induction ps as [|p ps IH]; [reflexivity|]. simpl. now rewrite IH.
Qed.

(** Every paragraph handed to the renderer is a non-empty text without
    whitespace at either end and without a line break, and the story is
    these paragraphs in order, each followed by the spacer of height 12. *)
Theorem paragraphs_are_trimmed (text : pystr) :
  make_story text = story_of_paragraphs (paragraph_texts (make_story text))
  /\ forall p, In p (paragraph_texts (make_story text)) ->
               p <> [] /\ PyStr.strip p = p /\ ~ In PyStr.LF p.
Proof.
  rewrite make_story_paragraphs, paragraph_texts_story. split; [reflexivity|].
  intros p Hp. unfold surviving_paragraphs in Hp.
  apply in_map_iff in Hp. destruct Hp as (c & <- & Hc).
  apply filter_In in Hc. destruct Hc as [Hc Hk].
  split; [now apply truthy_true|]. split; [apply strip_idempotent|].
  intros Hin. destruct (strip_decompose c) as (a & b & E & _).
  assert (Hinc : In PyStr.LF c)
    by (rewrite E, !in_app_iff; auto).
  unfold paragraph_candidates in Hc. apply in_map_iff in Hc.
  destruct Hc as (piece & <- & _). unfold PyStr.replace in Hinc.
  apply in_map_iff in Hinc. destruct Hinc as (x & Hx & _).
  destruct (x =? PyStr.LF)%N eqn:Ex; [discriminate|].
  apply N.eqb_neq in Ex. congruence.
Qed.

(** *** Splitting and joining *)

Lemma split_from_skip sep (p : pystr) : forall s cur,
  PyStr.split_from sep (List.length p) cur (p ++ s) = PyStr.split_from sep 0 cur s.
Proof.
  induction p as [|a p IH]; intros s cur; [reflexivity|]. simpl. apply IH.
Qed.

Lemma starts_with_app (p : pystr) : forall s,
  PyStr.starts_with p s = true -> exists rest, s = p ++ rest.
Proof.
  induction p as [|a p IH]; intros s H; simpl in H.
  - now exists s.
  - destruct s as [|b s]; [discriminate|].
    apply andb_true_iff in H. destruct H as [Hab Hps].
    apply N.eqb_eq in Hab. subst b.
    destruct (IH s Hps) as (rest & ->). now exists rest.
Qed.

Lemma split_from_not_nil sep (s : pystr) : forall skip cur,
  PyStr.split_from sep skip cur s <> [].
Proof.
  induction s as [|c s IH]; intros skip cur; simpl; [discriminate|].
  destruct skip; [|apply IH].
  destruct (PyStr.starts_with sep (c :: s)); [discriminate | apply IH].
Qed.

Lemma str_join_cons sep p rest :
  rest <> [] -> str_join sep (p :: rest) = p ++ sep ++ str_join sep rest.
Proof. destruct rest; [congruence | reflexivity]. Qed.

Lemma split_from_join sep :
  sep <> [] ->
  forall n (s : pystr), (List.length s <= n)%nat ->
  forall cur, str_join sep (PyStr.split_from sep 0 cur s) = rev cur ++ s.
Proof.
  intros Hsep. induction n as [|n IH]; intros s Hn cur.
  - destruct s; [|simpl in Hn; lia]. simpl. now rewrite app_nil_r.
  - destruct s as [|c s]; [simpl; now rewrite app_nil_r|].
    cbn [PyStr.split_from].
    destruct (PyStr.starts_with sep (c :: s)) eqn:E.
    + destruct (starts_with_app _ _ E) as (rest & Hrest).
      destruct sep as [|a sep']; [congruence|].
      injection Hrest as <- ->.
      cbn [List.length]. rewrite Nat.sub_succ, Nat.sub_0_r, split_from_skip.
      rewrite str_join_cons by apply split_from_not_nil.
      rewrite IH by (simpl in Hn; rewrite length_app in Hn; lia).
      reflexivity.
    + rewrite IH by (simpl in Hn; lia). simpl. now rewrite <- app_assoc.
Qed.

(** [sep.join(s.split(sep))] is [s]. *)
Lemma split_join sep (s : pystr) :
  sep <> [] -> str_join sep (PyStr.split sep s) = s.
Proof.
  intros H. unfold PyStr.split.
  now rewrite (split_from_join H (n := List.length s)).
Qed.

(** *** What rendering keeps of the text *)

Lemma non_space_app (a b : pystr) : non_space (a ++ b) = non_space a ++ non_space b.
Proof. apply filter_app. Qed.

Lemma non_space_blank (s : pystr) : blank s -> non_space s = [].
Proof.
  induction 1 as [|c s Hc _ IH]; [reflexivity|]. simpl. now rewrite Hc.
Qed.

Lemma non_space_strip (s : pystr) : non_space (PyStr.strip s) = non_space s.
Proof.
  destruct (strip_decompose s) as (a & b & E & Ha & Hb).
  rewrite E at 2. rewrite !non_space_app, (non_space_blank Ha), (non_space_blank Hb).
  now rewrite app_nil_r.
Qed.

Lemma non_space_replace (s : pystr) :
  non_space (PyStr.replace PyStr.LF PyStr.SP s) = non_space s.
Proof.
  induction s as [|c s IH]; [reflexivity|]. simpl.
  destruct (c =? PyStr.LF)%N eqn:E.
  - apply N.eqb_eq in E. subst c. simpl. exact IH.
  - destruct (PyStr.isspace c); simpl; now rewrite IH.
Qed.

Lemma non_space_join sep (pieces : list pystr) :
  blank sep ->
  non_space (str_join sep pieces) = List.concat (map non_space pieces).
Proof.
  intros Hsep. induction pieces as [|p rest IH]; [reflexivity|].
  destruct rest as [|q rest].
  - simpl. now rewrite app_nil_r.
  - rewrite str_join_cons by discriminate.
    rewrite !non_space_app, (non_space_blank Hsep), IH. reflexivity.
Qed.

Lemma non_space_surviving (candidates : list pystr) :
  List.concat (map non_space
                   (map PyStr.strip
                        (filter (fun c => PyStr.truthy (PyStr.strip c)) candidates)))
  = List.concat (map non_space candidates).
Proof.
  induction candidates as [|c cs IH]; [reflexivity|]. simpl.
  destruct (PyStr.truthy (PyStr.strip c)) eqn:E; simpl.
  - now rewrite IH, non_space_strip.
  - apply truthy_false in E. rewrite IH, <- (non_space_strip c), E. reflexivity.
Qed.

(** Rendering loses whitespace only: the paragraphs, read one after the
    other without their whitespace, are the text without its whitespace. *)
Theorem rendering_keeps_visible_text (text : pystr) :
  non_space (List.concat (paragraph_texts (make_story text))) = non_space text.
Proof.
  rewrite make_story_paragraphs, paragraph_texts_story.
  assert (Hc : forall l : list pystr,
             non_space (List.concat l) = List.concat (map non_space l)).
  { induction l as [|x l IH]; [reflexivity|]. simpl.
    now rewrite non_space_app, IH. }
  rewrite Hc. unfold surviving_paragraphs. rewrite non_space_surviving.
  unfold paragraph_candidates. rewrite map_map.
  rewrite (map_ext _ non_space non_space_replace).
  rewrite <- (non_space_join (sep := [PyStr.LF; PyStr.LF]))
    by (repeat constructor).
  now rewrite split_join.
Qed.

(** * The window *)

Section ShellFacts.

Variables Image Language Translation : Type.
Variable w : World Image Language Translation.

Lemma get_pdf_preview_image_trace pdf_path page :
  snd (get_pdf_preview_image w pdf_path page)
  = [EConvertFromPath pdf_path 100 page page].
Proof.
  unfold get_pdf_preview_image, call.
  destruct (convert_from_path w pdf_path 100 page page) as [[|image0 rest]|e];
    reflexivity.
Qed.

(** [get_pdf_preview_image] asks once for the one page at 100 dpi.  It
    returns exactly when the rasterization gives at least one image, and
    then the first one; an empty rasterization raises the no-pages message
    behind the preview prefix, as every other failure is behind it. *)
Theorem preview_image_outcome pdf_path page :
  snd (get_pdf_preview_image w pdf_path page)
  = [EConvertFromPath pdf_path 100 page page]
  /\ (forall img,
         fst (get_pdf_preview_image w pdf_path page) = Returns img
         <-> exists rest,
             convert_from_path w pdf_path 100 page page = Returns (img :: rest))
  /\ (convert_from_path w pdf_path 100 page page = Returns [] ->
      fst (get_pdf_preview_image w pdf_path page)
      = Raises (preview_error_prefix ++ no_pages_message))
  /\ (forall msg,
         fst (get_pdf_preview_image w pdf_path page) = Raises msg ->
         exists e, msg = preview_error_prefix ++ e).
Proof.
  split; [apply get_pdf_preview_image_trace|].
  unfold get_pdf_preview_image, call.
  destruct (convert_from_path w pdf_path 100 page page) as [[|image0 rest]|e];
    cbn [bind try_except ret raise fst snd app].
  - split; [|split].
    + intros img. split; [discriminate | intros (r & H); discriminate].
    + reflexivity.
    + intros msg [= <-]. eexists. reflexivity.
  - split; [|split].
    + intros img. split.
      * intros [= <-]. now exists rest.
      * intros (r & [= <- _]). reflexivity.
    + discriminate.
    + discriminate.
  - split; [|split].
    + intros img. split; [discriminate | intros (r & H); discriminate].
    + discriminate.
    + intros msg [= <-]. eexists. reflexivity.
Qed.

(** A preview changes the image kept for its panel and nothing else. *)
Lemma display_original_preview_attributes (a : App Image) page :
  let a' := fst (display_original_preview w a page) in
  input_pdf_path a' = input_pdf_path a
  /\ output_pdf_path a' = output_pdf_path a
  /\ original_current_page a' = original_current_page a
  /\ original_total_pages a' = original_total_pages a
  /\ translated_current_page a' = translated_current_page a
  /\ translated_total_pages a' = translated_total_pages a.
Proof.
  unfold display_original_preview.
  destruct (get_pdf_preview_image w (input_pdf_path a) page) as [[img|e] tr];
    simpl; auto 10.
Qed.

Lemma display_translated_preview_attributes (a : App Image) page :
  let a' := fst (display_translated_preview w a page) in
  input_pdf_path a' = input_pdf_path a
  /\ output_pdf_path a' = output_pdf_path a
  /\ original_current_page a' = original_current_page a
  /\ original_total_pages a' = original_total_pages a
  /\ translated_current_page a' = translated_current_page a
  /\ translated_total_pages a' = translated_total_pages a.
Proof.
  unfold display_translated_preview.
  destruct (get_pdf_preview_image w (output_pdf_path a) page) as [[img|e] tr];
    simpl; auto 10.
Qed.

Lemma rasterizations_app (a b : list (shell_event Image Language Translation)) :
  rasterizations (a ++ b) = rasterizations a ++ rasterizations b.
Proof. apply flat_map_app. Qed.

Lemma display_original_preview_rasterizations (a : App Image) page :
  rasterizations (snd (display_original_preview w a page))
  = [(input_pdf_path a, 100%nat, page, page)].
Proof.
  unfold display_original_preview.
  pose proof (get_pdf_preview_image_trace (input_pdf_path a) page) as H.
  destruct (get_pdf_preview_image w (input_pdf_path a) page) as [[img|e] tr];
    simpl in H; subst tr; reflexivity.
Qed.

Lemma display_translated_preview_rasterizations (a : App Image) page :
  rasterizations (snd (display_translated_preview w a page))
  = [(output_pdf_path a, 100%nat, page, page)].
Proof.
  unfold display_translated_preview.
  pose proof (get_pdf_preview_image_trace (output_pdf_path a) page) as H.
  destruct (get_pdf_preview_image w (output_pdf_path a) page) as [[img|e] tr];
    simpl in H; subst tr; reflexivity.
Qed.

Ltac fields :=
  cbn [input_pdf_path output_pdf_path original_current_page original_total_pages
       translated_current_page translated_total_pages
       set_input_pdf_path set_original_current_page set_original_total_pages
       set_translated_current_page set_original_image_tk set_translated_image_tk]
    in *.

Lemma act_in_range (a : App Image) x :
  pages_in_range a -> pages_in_range (fst (act w a x)).
Proof.
  unfold pages_in_range. intros [Ho Ht].
  destruct x as [file_path| | | |]; cbn [act].
  - unfold select_pdf. destruct (PyStr.truthy file_path); [|now split].
    destruct (open_pdf w file_path) as [pages|e]; [|now split].
    cbv zeta.
    pose proof (display_original_preview_attributes
                  (set_original_current_page 1
                     (set_original_total_pages (List.length pages)
                        (set_input_pdf_path file_path a))) 1) as H.
    cbn [original_current_page set_original_current_page].
    destruct (display_original_preview w _ 1) as [a4 tr].
    cbv zeta in H. cbn [fst] in *. destruct H as (_ & _ & -> & -> & -> & ->).
    fields. split; [lia | exact Ht].
  - unfold prev_original_page.
    destruct (1 <? original_current_page a)%nat eqn:E; [|now split].
    apply Nat.ltb_lt in E. cbv zeta.
    pose proof (display_original_preview_attributes
                  (set_original_current_page (original_current_page a - 1) a)
                  (original_current_page a - 1)) as H.
    cbv zeta in H. cbn [original_current_page set_original_current_page] in *.
    destruct H as (_ & _ & -> & -> & -> & ->). fields. split; [lia | exact Ht].
  - unfold next_original_page.
    destruct (original_current_page a <? original_total_pages a)%nat eqn:E;
      [|now split].
    apply Nat.ltb_lt in E. cbv zeta.
    pose proof (display_original_preview_attributes
                  (set_original_current_page (original_current_page a + 1) a)
                  (original_current_page a + 1)) as H.
    cbv zeta in H. cbn [original_current_page set_original_current_page] in *.
    destruct H as (_ & _ & -> & -> & -> & ->). fields. split; [lia | exact Ht].
  - unfold prev_translated_page.
    destruct (1 <? translated_current_page a)%nat eqn:E; [|now split].
    apply Nat.ltb_lt in E. cbv zeta.
    pose proof (display_translated_preview_attributes
                  (set_translated_current_page (translated_current_page a - 1) a)
                  (translated_current_page a - 1)) as H.
    cbv zeta in H. cbn [translated_current_page set_translated_current_page] in *.
    destruct H as (_ & _ & -> & -> & -> & ->). fields. split; [exact Ho | lia].
  - unfold next_translated_page.
    destruct (translated_current_page a <? translated_total_pages a)%nat eqn:E;
      [|now split].
    apply Nat.ltb_lt in E. cbv zeta.
    pose proof (display_translated_preview_attributes
                  (set_translated_current_page (translated_current_page a + 1) a)
                  (translated_current_page a + 1)) as H.
    cbv zeta in H. cbn [translated_current_page set_translated_current_page] in *.
    destruct H as (_ & _ & -> & -> & -> & ->). fields. split; [exact Ho | lia].
Qed.

(** Whatever files the user selects and whatever buttons are pressed, in
    any order, and whatever the previews answer, both page counters stay at
    least 1 and at most the page count of their document (or 1 when the
    document has no page). *)
Theorem navigation_stays_in_range (xs : list action) : forall a : App Image,
  pages_in_range a -> pages_in_range (fst (run w a xs)).
Proof.
  induction xs as [|x xs IH]; intros a Ha; cbn [run]; [exact Ha|].
  pose proof (act_in_range x Ha) as H1.
  destruct (act w a x) as [a1 t1]. cbn [fst] in H1.
  specialize (IH a1 H1). destruct (run w a1 xs) as [a2 t2]. exact IH.
Qed.

Lemma prev_original_page_unfold (a : App Image) :
  (1 < original_current_page a)%nat ->
  prev_original_page w a
  = display_original_preview
      w (set_original_current_page (original_current_page a - 1) a)
      (original_current_page a - 1).
Proof.
  intros H. unfold prev_original_page.
  now rewrite (proj2 (Nat.ltb_lt _ _) H).
Qed.

Lemma next_original_page_unfold (a : App Image) :
  (original_current_page a < original_total_pages a)%nat ->
  next_original_page w a
  = display_original_preview
      w (set_original_current_page (original_current_page a + 1) a)
      (original_current_page a + 1).
Proof.
  intros H. unfold next_original_page.
  now rewrite (proj2 (Nat.ltb_lt _ _) H).
Qed.

Lemma prev_translated_page_unfold (a : App Image) :
  (1 < translated_current_page a)%nat ->
  prev_translated_page w a
  = display_translated_preview
      w (set_translated_current_page (translated_current_page a - 1) a)
      (translated_current_page a - 1).
Proof.
  intros H. unfold prev_translated_page.
  now rewrite (proj2 (Nat.ltb_lt _ _) H).
Qed.

Lemma next_translated_page_unfold (a : App Image) :
  (translated_current_page a < translated_total_pages a)%nat ->
  next_translated_page w a
  = display_translated_preview
      w (set_translated_current_page (translated_current_page a + 1) a)
      (translated_current_page a + 1).
Proof.
  intros H. unfold next_translated_page.
  now rewrite (proj2 (Nat.ltb_lt _ _) H).
Qed.

(** Next then Previous, and Previous then Next inside the document, bring
    the page counter back, whether the previews could be drawn or not; at
    the first page Previous does nothing at all, and so does Next at the
    last page.  This holds for both panels. *)
Theorem navigation_round_trip (a : App Image) :
  ((1 <= original_current_page a < original_total_pages a)%nat ->
   original_current_page
     (fst (prev_original_page w (fst (next_original_page w a))))
   = original_current_page a)
  /\ ((1 < original_current_page a <= original_total_pages a)%nat ->
      original_current_page
        (fst (next_original_page w (fst (prev_original_page w a))))
      = original_current_page a)
  /\ ((original_current_page a <= 1)%nat -> prev_original_page w a = (a, []))
  /\ ((original_total_pages a <= original_current_page a)%nat ->
      next_original_page w a = (a, []))
  /\ ((1 <= translated_current_page a < translated_total_pages a)%nat ->
      translated_current_page
        (fst (prev_translated_page w (fst (next_translated_page w a))))
      = translated_current_page a)
  /\ ((1 < translated_current_page a <= translated_total_pages a)%nat ->
      translated_current_page
        (fst (next_translated_page w (fst (prev_translated_page w a))))
      = translated_current_page a)
  /\ ((translated_current_page a <= 1)%nat -> prev_translated_page w a = (a, []))
  /\ ((translated_total_pages a <= translated_current_page a)%nat ->
      next_translated_page w a = (a, [])).
Proof.
  repeat split.
  - intros H. rewrite next_original_page_unfold by lia.
    destruct (display_original_preview_attributes
                (set_original_current_page (original_current_page a + 1) a)
                (original_current_page a + 1)) as (_ & _ & Hc & Ht & _).
    fields. rewrite prev_original_page_unfold by (rewrite Hc; lia).
    match goal with
    | |- original_current_page (fst (display_original_preview w ?b ?p)) = _ =>
        destruct (display_original_preview_attributes b p) as (_ & _ & Hc' & _)
    end.
    rewrite Hc'. fields. rewrite Hc. lia.
  - intros H. rewrite prev_original_page_unfold by lia.
    destruct (display_original_preview_attributes
                (set_original_current_page (original_current_page a - 1) a)
                (original_current_page a - 1)) as (_ & _ & Hc & Ht & _).
    fields. rewrite next_original_page_unfold by (rewrite Hc, Ht; lia).
    match goal with
    | |- original_current_page (fst (display_original_preview w ?b ?p)) = _ =>
        destruct (display_original_preview_attributes b p) as (_ & _ & Hc' & _)
    end.
    rewrite Hc'. fields. rewrite Hc. lia.
  - intros H. unfold prev_original_page.
    now rewrite (proj2 (Nat.ltb_ge _ _) H).
  - intros H. unfold next_original_page.
    now rewrite (proj2 (Nat.ltb_ge _ _) H).
  - intros H. rewrite next_translated_page_unfold by lia.
    destruct (display_translated_preview_attributes
                (set_translated_current_page (translated_current_page a + 1) a)
                (translated_current_page a + 1)) as (_ & _ & _ & _ & Hc & Ht).
    fields. rewrite prev_translated_page_unfold by (rewrite Hc; lia).
    match goal with
    | |- translated_current_page (fst (display_translated_preview w ?b ?p)) = _ =>
        destruct (display_translated_preview_attributes b p)
          as (_ & _ & _ & _ & Hc' & _)
    end.
    rewrite Hc'. fields. rewrite Hc. lia.
  - intros H. rewrite prev_translated_page_unfold by lia.
    destruct (display_translated_preview_attributes
                (set_translated_current_page (translated_current_page a - 1) a)
                (translated_current_page a - 1)) as (_ & _ & _ & _ & Hc & Ht).
    fields. rewrite next_translated_page_unfold by (rewrite Hc, Ht; lia).
    match goal with
    | |- translated_current_page (fst (display_translated_preview w ?b ?p)) = _ =>
        destruct (display_translated_preview_attributes b p)
          as (_ & _ & _ & _ & Hc' & _)
    end.
    rewrite Hc'. fields. rewrite Hc. lia.
  - intros H. unfold prev_translated_page.
    now rewrite (proj2 (Nat.ltb_ge _ _) H).
  - intros H. unfold next_translated_page.
    now rewrite (proj2 (Nat.ltb_ge _ _) H).
Qed.

(** No action moves a page counter without asking for the preview of the
    page it moved to, in its own panel.  An action of the original panel
    (a file selection, Previous, Next) leaves the output file and the page
    counter of the translated panel as they are; either it leaves its own
    counter alone and asks for no rasterization, or it asks for exactly one,
    at 100 dpi, of the input file at the page that is current in the
    original panel once the action is done.  An action of the translated
    panel does the same with the output file and the counter of the
    translated panel, and leaves the input file and the counter of the
    original panel as they are. *)
Theorem action_previews_current_page (a : App Image) (x : action) :
  let a' := fst (act w a x) in
  let asked := rasterizations (snd (act w a x)) in
  if on_original_panel x
  then translated_current_page a' = translated_current_page a
       /\ output_pdf_path a' = output_pdf_path a
       /\ ((asked = [] /\ original_current_page a' = original_current_page a)
           \/ asked = [(input_pdf_path a', 100%nat,
                        original_current_page a', original_current_page a')])
  else original_current_page a' = original_current_page a
       /\ input_pdf_path a' = input_pdf_path a
       /\ ((asked = [] /\ translated_current_page a' = translated_current_page a)
           \/ asked = [(output_pdf_path a', 100%nat,
                        translated_current_page a', translated_current_page a')]).
Proof.
  destruct x as [file_path| | | |]; cbn [act on_original_panel]; cbv zeta.
  - unfold select_pdf. destruct (PyStr.truthy file_path); [|cbn; auto 6].
    destruct (open_pdf w file_path) as [pages|e]; [|cbn; auto 6].
    cbv zeta. fields.
    match goal with
    | |- context [display_original_preview w ?b ?p] =>
        pose proof (display_original_preview_rasterizations b p) as Hr;
        destruct (display_original_preview_attributes b p)
          as (Hi & Ho & Hc & _ & Htc & _);
        destruct (display_original_preview w b p) as [a4 tr]
    end.
    cbn [fst snd] in *. fields.
    split; [exact Htc|]. split; [exact Ho|]. right.
    rewrite rasterizations_app, Hr, Hi, Hc. reflexivity.
  - destruct (Nat.ltb_spec 1 (original_current_page a)) as [H|H].
    + rewrite (prev_original_page_unfold _ H).
      rewrite display_original_preview_rasterizations.
      match goal with
      | |- context [display_original_preview w ?b ?p] =>
          destruct (display_original_preview_attributes b p)
            as (Hi & Ho & Hc & _ & Htc & _)
      end.
      fields. split; [exact Htc|]. split; [exact Ho|]. right.
      rewrite Hi, Hc. reflexivity.
    + unfold prev_original_page.
      rewrite (proj2 (Nat.ltb_ge _ _) H). cbn; auto 6.
  - destruct (Nat.ltb_spec (original_current_page a) (original_total_pages a))
      as [H|H].
    + rewrite (next_original_page_unfold _ H).
      rewrite display_original_preview_rasterizations.
      match goal with
      | |- context [display_original_preview w ?b ?p] =>
          destruct (display_original_preview_attributes b p)
            as (Hi & Ho & Hc & _ & Htc & _)
      end.
      fields. split; [exact Htc|]. split; [exact Ho|]. right.
      rewrite Hi, Hc. reflexivity.
    + unfold next_original_page.
      rewrite (proj2 (Nat.ltb_ge _ _) H). cbn; auto 6.
  - destruct (Nat.ltb_spec 1 (translated_current_page a)) as [H|H].
    + rewrite (prev_translated_page_unfold _ H).
      rewrite display_translated_preview_rasterizations.
      match goal with
      | |- context [display_translated_preview w ?b ?p] =>
          destruct (display_translated_preview_attributes b p)
            as (Hi & Ho & Hoc & _ & Hc & _)
      end.
      fields. split; [exact Hoc|]. split; [exact Hi|]. right.
      rewrite Ho, Hc. reflexivity.
    + unfold prev_translated_page.
      rewrite (proj2 (Nat.ltb_ge _ _) H). cbn; auto 6.
  - destruct (Nat.ltb_spec (translated_current_page a) (translated_total_pages a))
      as [H|H].
    + rewrite (next_translated_page_unfold _ H).
      rewrite display_translated_preview_rasterizations.
      match goal with
      | |- context [display_translated_preview w ?b ?p] =>
          destruct (display_translated_preview_attributes b p)
            as (Hi & Ho & Hoc & _ & Hc & _)
      end.
      fields. split; [exact Hoc|]. split; [exact Hi|]. right.
      rewrite Ho, Hc. reflexivity.
    + unfold next_translated_page.
      rewrite (proj2 (Nat.ltb_ge _ _) H). cbn; auto 6.
Qed.

Lemma display_original_preview_no_nav (a : App Image) page b st :
  ~ In (SNavConfig b st) (snd (display_original_preview w a page)).
Proof.
  unfold display_original_preview.
  destruct (get_pdf_preview_image w (input_pdf_path a) page) as [[img|e] tr];
    cbn [snd]; rewrite in_app_iff, in_map_iff; cbn [In];
    intros [(x & Hx & _)|H]; try discriminate;
    repeat (destruct H as [H|H]; try discriminate); exact H.
Qed.

(** [select_pdf] on the answer of the file dialog.  A dismissed dialog
    changes nothing.  A file that cannot be opened is nonetheless taken as
    the input file, with the page count and the current page of the file
    before it, and only the error box is shown.  A file that opens becomes
    the input, at page 1 of its page count, with the preview of page 1
    asked for; the two navigation buttons are enabled exactly when it has
    more than one page. *)
Theorem select_pdf_outcome (a : App Image) (file_path : pystr) :
  (file_path = [] -> select_pdf w a file_path = (a, []))
  /\ (forall e,
         file_path <> [] -> open_pdf w file_path = Raises e ->
         select_pdf w a file_path
         = (set_input_pdf_path file_path a,
            [SFileLabel (basename file_path); SCall (EOpen file_path);
             SCall (EShowError (PyStr.lit "Failed to read PDF: " ++ e))]))
  /\ (forall pages,
         file_path <> [] -> open_pdf w file_path = Returns pages ->
         input_pdf_path (fst (select_pdf w a file_path)) = file_path
         /\ original_current_page (fst (select_pdf w a file_path)) = 1%nat
         /\ original_total_pages (fst (select_pdf w a file_path)) = List.length pages
         /\ rasterizations (snd (select_pdf w a file_path))
            = [(file_path, 100%nat, 1%nat, 1%nat)]
         /\ (forall b, In (SNavConfig b NORMAL) (snd (select_pdf w a file_path))
                       <-> (1 < List.length pages)%nat)
         /\ (forall b, In (SNavConfig b DISABLED) (snd (select_pdf w a file_path))
                       <-> (List.length pages <= 1)%nat)).
Proof.
  split; [|split].
  - intros ->. reflexivity.
  - intros e Hne Ho. unfold select_pdf.
    rewrite (proj2 (truthy_true _) Hne), Ho. reflexivity.
  - intros pages Hne Ho. unfold select_pdf.
    rewrite (proj2 (truthy_true _) Hne), Ho. cbv zeta. fields.
    match goal with
    | |- context [display_original_preview w ?b ?p] =>
        pose proof (display_original_preview_rasterizations b p) as Hr;
        pose proof (fun nb st => @display_original_preview_no_nav b p nb st) as Hn;
        destruct (display_original_preview_attributes b p)
          as (Hi & _ & Hc & Ht & _);
        destruct (display_original_preview w b p) as [a4 tr]
    end.
    cbn [fst snd] in *. fields.
    split; [exact Hi|]. split; [exact Hc|]. split; [exact Ht|].
    split; [now rewrite rasterizations_app, Hr|].
    destruct (Nat.ltb_spec 1 (List.length pages)) as [H|H]; split; intros b.
    + split; [intros _; exact H|]. intros _. destruct b; cbn; auto.
    + split; [|lia]. cbn [app In]. intros [F|[F|[F|[F|F]]]]; try discriminate.
      exfalso. exact (Hn _ _ F).
    + split; [|lia]. cbn [app In]. intros [F|[F|[F|[F|F]]]]; try discriminate.
      exfalso. exact (Hn _ _ F).
    + split; [intros _; exact H|]. intros _. destruct b; cbn; auto.
Qed.

End ShellFacts.

(** * The installation of the language packages *)

Section InstallerFacts.

Variables Lang Trans Package PackagePath : Type.
Variable lang_code : Lang -> pystr.
Variable translations_to : Lang -> list Trans.
Variable trans_to_lang : Trans -> Lang.
Variable from_code : Package -> pystr.
Variable to_code : Package -> pystr.
Variable c : Catalog Lang Package PackagePath.

Lemma ibind_returns {A B} (a : A) tr (f : A -> IM Package PackagePath B) :
  ibind (Returns a, tr) f = (fst (f a), tr ++ snd (f a)).
Proof. unfold ibind. now destruct (f a). Qed.

Lemma snd_ibind {A B} (m : IM Package PackagePath A)
      (f : A -> IM Package PackagePath B) :
  snd (ibind m f)
  = snd m ++ match fst m with Returns a => snd (f a) | Raises _ => [] end.
Proof.
  destruct m as [[a|e] tr]; simpl.
  - now destruct (f a).
  - now rewrite app_nil_r.
Qed.

Lemma downloads_app (a b : list (install_event Package PackagePath)) :
  downloads (a ++ b) = downloads a ++ downloads b.
Proof. apply flat_map_app. Qed.

(** With languages as Argos Translate builds them, where the translations
    listed under a language are those into it, [is_pair_installed] can only
    answer True for a pair of one and the same code. *)
Lemma is_pair_installed_same_code src tgt (installed_langs : list Lang) :
  (forall lang trans,
      In trans (translations_to lang) ->
      lang_code (trans_to_lang trans) = lang_code lang) ->
  is_pair_installed lang_code translations_to trans_to_lang src tgt installed_langs
  = true ->
  src = tgt.
Proof.
  intros Hinv H. unfold is_pair_installed in H.
  apply existsb_exists in H. destruct H as (lang & _ & H).
  apply andb_true_iff in H. destruct H as [Hs Ht].
  apply existsb_exists in Ht. destruct Ht as (trans & Hin & Hc).
  rewrite pystr_eqb_eq in Hs, Hc. rewrite <- Hs, <- Hc. symmetry. now apply Hinv.
Qed.

Lemma install_pair_again available_packages langs files src tgt :
  (forall pkg, exists pkg_path, download c pkg = Returns pkg_path) ->
  (forall pkg_path, install_from_path c pkg_path = Returns tt) ->
  (forall installed, exists langs', installed_languages_after c installed = Returns langs') ->
  is_pair_installed lang_code translations_to trans_to_lang src tgt langs = false ->
  exists state' tr,
    install_pair lang_code translations_to trans_to_lang from_code to_code c
                 available_packages (langs, files) (src, tgt)
    = (Returns state', tr)
    /\ downloads tr
       = match find_package from_code to_code src tgt available_packages with
         | Some pkg => [pkg]
         | None => []
         end.
Proof.
  intros Hd Hi Hl Hn. unfold install_pair. rewrite Hn.
  destruct (find_package from_code to_code src tgt available_packages) as [pkg|].
  - destruct (Hd pkg) as [pkg_path Hp].
    destruct (Hl (files ++ [pkg_path])) as [langs' Hl'].
    unfold print, icall, ibind, iret. rewrite Hp. cbn [app].
    rewrite (Hi pkg_path). cbn [app]. rewrite Hl'.
    eexists. eexists. split; reflexivity.
  - eexists. eexists. split; reflexivity.
Qed.

Lemma install_loop_again available_packages pairs :
  (forall lang trans,
      In trans (translations_to lang) ->
      lang_code (trans_to_lang trans) = lang_code lang) ->
  (forall pkg, exists pkg_path, download c pkg = Returns pkg_path) ->
  (forall pkg_path, install_from_path c pkg_path = Returns tt) ->
  (forall installed, exists langs', installed_languages_after c installed = Returns langs') ->
  Forall (fun src_tgt => fst src_tgt <> snd src_tgt) pairs ->
  forall state,
  exists state' tr,
    install_loop lang_code translations_to trans_to_lang from_code to_code c
                 available_packages pairs state
    = (Returns state', tr)
    /\ downloads tr = packages_of_pairs from_code to_code pairs available_packages.
Proof.
  intros Hinv Hd Hi Hl Hp.
  induction Hp as [|[src tgt] pairs Hne _ IH]; intros [langs files];
    cbn [install_loop].
  - eexists. eexists. split; reflexivity.
  - assert (Hn : is_pair_installed lang_code translations_to trans_to_lang
                                   src tgt langs = false).
    { destruct (is_pair_installed lang_code translations_to trans_to_lang
                                  src tgt langs) eqn:E; [|reflexivity].
      exfalso. apply Hne. cbn [fst snd].
      exact (is_pair_installed_same_code _ _ _ Hinv E). }
    destruct (@install_pair_again available_packages langs files src tgt
                Hd Hi Hl Hn) as (st1 & tr1 & E1 & D1).
    destruct (IH st1) as (st2 & tr2 & E2 & D2).
    rewrite E1, ibind_returns, E2. cbn [fst snd].
    eexists. eexists. split; [reflexivity|].
    rewrite downloads_app, D1, D2. reflexivity.
Qed.

(** The test of the installer never finds a required pair installed.  With
    languages as Argos Translate builds them, where the translations listed
    under a language are those into it, [is_pair_installed] answers False
    for every pair of two different codes.  So, when the calls to the
    package index, the downloads and the installations all return, the
    function returns after downloading, for each required pair in the
    order of the list, the first package the index has for it, whether or
    not that package is installed already. *)
Theorem installs_every_available_pair available_packages :
  (forall lang trans,
      In trans (translations_to lang) ->
      lang_code (trans_to_lang trans) = lang_code lang) ->
  update_package_index c = Returns tt ->
  get_available_packages c = Returns available_packages ->
  (forall pkg, exists pkg_path, download c pkg = Returns pkg_path) ->
  (forall pkg_path, install_from_path c pkg_path = Returns tt) ->
  (forall installed, exists langs, installed_languages_after c installed = Returns langs) ->
  (forall src tgt installed_langs,
      src <> tgt ->
      is_pair_installed lang_code translations_to trans_to_lang src tgt installed_langs
      = false)
  /\ fst (install_required_language_pairs lang_code translations_to trans_to_lang
                                          from_code to_code c)
     = Returns tt
  /\ downloads (snd (install_required_language_pairs
                       lang_code translations_to trans_to_lang from_code to_code c))
     = packages_of_pairs from_code to_code required_pairs available_packages.
Proof.
  intros Hinv Hu Ha Hd Hi Hl. split.
  { intros src tgt langs Hne.
    destruct (is_pair_installed lang_code translations_to trans_to_lang
                                src tgt langs) eqn:E; [|reflexivity].
    exfalso. apply Hne. exact (is_pair_installed_same_code _ _ _ Hinv E). }
  unfold install_required_language_pairs, icall, print.
  destruct (Hl []) as [langs Hl0].
  rewrite Hu, Ha, Hl0, !ibind_returns. cbn [fst snd].
  assert (Hp : Forall (fun src_tgt : pystr * pystr => fst src_tgt <> snd src_tgt)
                      required_pairs)
    by (repeat constructor; discriminate).
  destruct (@install_loop_again available_packages required_pairs
              Hinv Hd Hi Hl Hp (langs, [])) as (st & tr & E & D).
  rewrite E, ibind_returns. cbn [fst snd iret app]. split; [reflexivity|].
  rewrite app_nil_r.
  change (downloads (IPrint (PyStr.lit "Updating package index...")
                       :: IUpdatePackageIndex :: IGetAvailablePackages
                       :: IGetInstalledLanguages :: tr))
    with (downloads tr).
  exact D.
Qed.

Lemma install_pair_downloads available_packages state src tgt :
  downloads (snd (install_pair lang_code translations_to trans_to_lang
                               from_code to_code c available_packages state
                               (src, tgt))) = []
  \/ exists pkg,
      downloads (snd (install_pair lang_code translations_to trans_to_lang
                                   from_code to_code c available_packages state
                                   (src, tgt))) = [pkg]
      /\ from_code pkg = src /\ to_code pkg = tgt /\ In pkg available_packages.
Proof.
  unfold install_pair. destruct state as [langs files].
  destruct (is_pair_installed lang_code translations_to trans_to_lang src tgt langs);
    [now left|].
  destruct (find_package from_code to_code src tgt available_packages) as [pkg|] eqn:E;
    [|now left].
  right. exists pkg. unfold find_package in E. apply find_some in E.
  destruct E as [Hin E]. apply andb_true_iff in E.
  rewrite !pystr_eqb_eq in E. destruct E as [Hf Ht].
  split; [|auto]. unfold print, icall. rewrite ibind_returns. cbn [fst snd].
  destruct (download c pkg) as [path|e]; [|reflexivity].
  rewrite ibind_returns. cbn [fst snd].
  destruct (install_from_path c path) as [[]|e]; [|reflexivity].
  rewrite ibind_returns. cbn [fst snd].
  destruct (installed_languages_after c (files ++ [path])); reflexivity.
Qed.

Lemma install_loop_downloads available_packages pairs : forall state,
  Forall (fun pkg => In (from_code pkg, to_code pkg) pairs
                     /\ In pkg available_packages)
         (downloads (snd (install_loop lang_code translations_to trans_to_lang
                                       from_code to_code c available_packages
                                       pairs state)))
  /\ (List.length (downloads (snd (install_loop lang_code translations_to
                                                trans_to_lang from_code to_code c
                                                available_packages pairs state)))
      <= List.length pairs)%nat.
Proof.
  induction pairs as [|[src tgt] pairs IH]; intros state; cbn [install_loop].
  - split; [constructor | simpl; lia].
  - rewrite snd_ibind, downloads_app, length_app.
    assert (Hrest :
              Forall (fun pkg => In (from_code pkg, to_code pkg) ((src, tgt) :: pairs)
                                 /\ In pkg available_packages)
                     (downloads
                        match fst (install_pair lang_code translations_to trans_to_lang
                                                from_code to_code c available_packages
                                                state (src, tgt)) with
                        | Returns a =>
                            snd (install_loop lang_code translations_to trans_to_lang
                                              from_code to_code c available_packages
                                              pairs a)
                        | Raises _ => []
                        end)
              /\ (List.length
                    (downloads
                       match fst (install_pair lang_code translations_to trans_to_lang
                                               from_code to_code c available_packages
                                               state (src, tgt)) with
                       | Returns a =>
                           snd (install_loop lang_code translations_to trans_to_lang
                                             from_code to_code c available_packages
                                             pairs a)
                       | Raises _ => []
                       end) <= List.length pairs)%nat).
    { destruct (fst (install_pair _ _ _ _ _ c available_packages state (src, tgt)))
        as [st'|e]; [|split; [constructor | simpl; lia]].
      destruct (IH st') as [HF HL]. split; [|exact HL].
      eapply Forall_impl; [|exact HF]. intros pkg [H1 H2]. split; [now right | exact H2]. }
    destruct Hrest as [HF HL].
    destruct (install_pair_downloads available_packages state src tgt)
      as [->|(pkg & -> & Hf & Ht & Hin)].
    + split; [exact HF | simpl; lia].
    + split; [|simpl; lia]. constructor; [|exact HF].
      split; [left; congruence | exact Hin].
Qed.

(** Whatever the index offers and whatever is installed, the function
    downloads at most eight packages, each one a package of the index for a
    pair of the required list. *)
Theorem downloads_only_required_pairs :
  Forall (fun pkg =>
            In (from_code pkg, to_code pkg) required_pairs
            /\ exists available_packages,
                get_available_packages c = Returns available_packages
                /\ In pkg available_packages)
         (downloads (snd (install_required_language_pairs
                            lang_code translations_to trans_to_lang
                            from_code to_code c)))
  /\ (List.length (downloads (snd (install_required_language_pairs
                                     lang_code translations_to trans_to_lang
                                     from_code to_code c))) <= 8)%nat.
Proof.
  unfold install_required_language_pairs, icall, print.
  rewrite ibind_returns. cbn [fst snd app].
  destruct (update_package_index c) as [[]|e];
    [|split; [constructor | simpl; lia]].
  rewrite ibind_returns. cbn [fst snd app].
  destruct (get_available_packages c) as [av|e];
    [|split; [constructor | simpl; lia]].
  rewrite ibind_returns. cbn [fst snd app].
  destruct (installed_languages_after c []) as [langs|e];
    [|split; [constructor | simpl; lia]].
  rewrite ibind_returns. cbn [fst snd app]. rewrite snd_ibind.
  destruct (install_loop_downloads av required_pairs (langs, [])) as [HF HL].
  assert (E : downloads
                (snd (install_loop lang_code translations_to trans_to_lang from_code
                                   to_code c av required_pairs (langs, []))
                 ++ match fst (install_loop lang_code translations_to trans_to_lang
                                            from_code to_code c av required_pairs
                                            (langs, [])) with
                    | Returns _ => snd (iret Package PackagePath tt)
                    | Raises _ => []
                    end)
              = downloads
                  (snd (install_loop lang_code translations_to trans_to_lang from_code
                                     to_code c av required_pairs (langs, [])))).
  { rewrite downloads_app.
    destruct (fst (install_loop _ _ _ _ _ c av required_pairs (langs, [])));
      simpl; now rewrite app_nil_r. }
  cbn [downloads flat_map app] in *. change (flat_map _ ?l) with (downloads l).
  rewrite E. split; [|exact HL].
  eapply Forall_impl; [|exact HF]. intros pkg [H1 H2]. split; [exact H1|].
  exists av. split; [reflexivity | exact H2].
Qed.

End InstallerFacts.

(** * The further properties on sample documents *)

Lemma extracted_text_is_concatenation_witness :
  PyStr.lit "Uno" ++ [PyStr.LF] ++ PyStr.lit "Hola" ++ [PyStr.LF]
    ++ PyStr.lit "Tres" ++ [PyStr.LF]
  = contributions world_three_pages (PyStr.lit "in.pdf") 1
      [page_of (Returns (Some (PyStr.lit "Uno")));
       page_of (Returns (Some []));
       page_of (Returns (Some (PyStr.lit "Tres")))].
Proof.
  apply (@extracted_text_is_concatenation nat pystr nat world_three_pages
           (PyStr.lit "in.pdf") (Some update_progress)).
  - reflexivity.
  - reflexivity.
Defined.

Lemma direct_document_text_witness :
  fst (extract_text_from_pdf world_all_direct (PyStr.lit "in.pdf")
                             (Some update_progress))
  = Returns (List.concat (map (fun t => t ++ [PyStr.LF])
                              [PyStr.lit "Uno"; PyStr.lit "Dos"])).
Proof.
  apply (@direct_document_text nat pystr nat world_all_direct
           (PyStr.lit "in.pdf") (Some update_progress)
           [PyStr.lit "Uno"; PyStr.lit "Dos"]).
  - reflexivity.
  - discriminate.
  - repeat constructor; intros H; inversion H; discriminate.
  - intros v. reflexivity.
Defined.

Lemma extraction_raise_is_fatal_witness :
  extract_text_from_pdf world_extract_raises (PyStr.lit "in.pdf")
                        (Some update_progress)
  = (Raises (PyStr.lit "Error extracting text from PDF: bad stream"),
     EOpen (PyStr.lit "in.pdf")
       :: [EExtractText 1; EProgress (progress_value world_extract_raises 1 2)]
       ++ [EExtractText 2]).
Proof.
  apply (@extraction_raise_is_fatal nat pystr nat world_extract_raises
           (PyStr.lit "in.pdf") (Some update_progress)
           [page_of (Returns (Some (PyStr.lit "A")))]
           (page_of (Raises (PyStr.lit "bad stream"))) []
           (PyStr.lit "A" ++ [PyStr.LF])
           [EExtractText 1; EProgress (progress_value world_extract_raises 1 2)]
           (PyStr.lit "bad stream")).
  - reflexivity.
  - reflexivity.
  - reflexivity.
Defined.

Lemma worker_buttons_witness :
  In (EConfig save_button NORMAL)
     (snd (process_translation sample_code world_three_pages (PyStr.lit "in.pdf")
                               (PyStr.lit "es") (PyStr.lit "en")
                               (PyStr.lit "translated.pdf"))).
Proof.
  apply (proj2 (proj2 (@worker_buttons nat pystr nat sample_code world_three_pages
                         (PyStr.lit "in.pdf") (PyStr.lit "es") (PyStr.lit "en")
                         (PyStr.lit "translated.pdf")))).
  reflexivity.
Defined.

Lemma worker_report_witness :
  reports (snd (process_translation sample_code world_blank (PyStr.lit "in.pdf")
                                    (PyStr.lit "es") (PyStr.lit "en")
                                    (PyStr.lit "translated.pdf")))
  = [EShowError no_text_message]
  /\ reports (snd (process_translation sample_code world_blank_late
                                       (PyStr.lit "in.pdf")
                                       (PyStr.lit "es") (PyStr.lit "en")
                                       (PyStr.lit "translated.pdf")))
     = [ECallbackNameError]
  /\ reports (snd (process_translation sample_code world_three_pages
                                       (PyStr.lit "in.pdf")
                                       (PyStr.lit "es") (PyStr.lit "en")
                                       (PyStr.lit "translated.pdf")))
     = [EShowInfo (PyStr.lit "Translated PDF saved as translated.pdf");
        EDisplayTranslatedPreview 1].
Proof.
  split; [|split].
  - exact (proj1 (@worker_report nat pystr nat sample_code world_blank
                    (PyStr.lit "in.pdf") (PyStr.lit "es") (PyStr.lit "en")
                    (PyStr.lit "translated.pdf"))).
  - exact (proj1 (@worker_report nat pystr nat sample_code world_blank_late
                    (PyStr.lit "in.pdf") (PyStr.lit "es") (PyStr.lit "en")
                    (PyStr.lit "translated.pdf"))).
  - exact (proj1 (@worker_report nat pystr nat sample_code world_three_pages
                    (PyStr.lit "in.pdf") (PyStr.lit "es") (PyStr.lit "en")
                    (PyStr.lit "translated.pdf"))).
Defined.

Lemma stage_checkpoints_witness :
  last (reported
          (snd (process_translation sample_code world_three_pages
                                    (PyStr.lit "in.pdf")
                                    (PyStr.lit "es") (PyStr.lit "en")
                                    (PyStr.lit "translated.pdf")))) 0
  = 100.
Proof.
  exact (proj2 (@stage_checkpoints nat pystr nat sample_code world_three_pages
                  (PyStr.lit "in.pdf") (PyStr.lit "es") (PyStr.lit "en")
                  (PyStr.lit "translated.pdf")) 0).
Defined.

Lemma translation_between_last_bearers_witness :
  translate_text sample_code world_three_pages (PyStr.lit "Hola")
                 (PyStr.lit "es") (PyStr.lit "en")
  = (Returns (PyStr.lit "Hola"),
     [EGetInstalledLanguages; EGetTranslation (PyStr.lit "es") (PyStr.lit "en");
      ETranslate 0%nat (PyStr.lit "Hola")]).
Proof.
  apply (@translation_between_last_bearers nat pystr nat sample_code
           world_three_pages (PyStr.lit "Hola") (PyStr.lit "es") (PyStr.lit "en")
           [PyStr.lit "es"; PyStr.lit "en"]
           [] (PyStr.lit "es") [PyStr.lit "en"]
           [PyStr.lit "es"] (PyStr.lit "en") []).
  - reflexivity.
  - reflexivity.
  - reflexivity.
  - repeat constructor. discriminate.
  - reflexivity.
  - reflexivity.
  - constructor.
Defined.

Lemma paragraphs_are_trimmed_witness :
  PyStr.lit "A A2" <> [] /\ PyStr.strip (PyStr.lit "A A2") = PyStr.lit "A A2"
  /\ ~ In PyStr.LF (PyStr.lit "A A2").
Proof.
  apply (proj2 (paragraphs_are_trimmed
                  (PyStr.lit " A" ++ [PyStr.LF] ++ PyStr.lit "A2 "
                             ++ [PyStr.LF; PyStr.LF] ++ PyStr.lit "B"))).
  left. reflexivity.
Defined.

Lemma preview_image_outcome_witness :
  fst (get_pdf_preview_image world_empty_raster (PyStr.lit "in.pdf") 1)
  = Raises (PyStr.lit "Error generating preview image: No pages found in PDF.").
Proof.
  apply (proj1 (proj2 (proj2 (@preview_image_outcome nat pystr nat world_empty_raster
                                (PyStr.lit "in.pdf") 1)))).
  reflexivity.
Defined.

Lemma navigation_stays_in_range_witness :
  pages_in_range
    (fst (run world_three_pages (initial_app nat)
              [Select (PyStr.lit "in.pdf"); NextOriginal; NextOriginal;
               NextOriginal; PrevOriginal; PrevTranslated])).
Proof.
  apply (@navigation_stays_in_range nat pystr nat world_three_pages).
  unfold pages_in_range. simpl. lia.
Defined.

Lemma navigation_round_trip_witness :
  original_current_page
    (fst (prev_original_page world_three_pages
            (fst (next_original_page world_three_pages
                    (fst (select_pdf world_three_pages (initial_app nat)
                                     (PyStr.lit "in.pdf")))))))
  = 1%nat.
Proof.
  apply (proj1 (@navigation_round_trip nat pystr nat world_three_pages
                  (fst (select_pdf world_three_pages (initial_app nat)
                                   (PyStr.lit "in.pdf"))))).
  simpl. lia.
Defined.

Lemma select_pdf_outcome_witness :
  original_total_pages
    (fst (select_pdf world_three_pages (initial_app nat) (PyStr.lit "in.pdf")))
  = 3%nat.
Proof.
  apply (proj1 (proj2 (proj2
           (proj2 (proj2 (@select_pdf_outcome nat pystr nat world_three_pages
                            (initial_app nat) (PyStr.lit "in.pdf")))
              [page_of (Returns (Some (PyStr.lit "Uno")));
               page_of (Returns (Some []));
               page_of (Returns (Some (PyStr.lit "Tres")))]
              ltac:(discriminate) eq_refl)))).
Defined.

Lemma sample_translations_into lang trans :
  In trans (sample_translations_to lang) ->
  sample_lang_code (sample_trans_to_lang trans) = sample_lang_code lang.
Proof.
  unfold sample_translations_to, sample_lang_code, sample_trans_to_lang.
  destruct (PyStr.eqb lang (PyStr.lit "en")) eqn:E1.
  - apply pystr_eqb_eq in E1. subst lang. intros [<-|[]]. reflexivity.
  - destruct (PyStr.eqb lang (PyStr.lit "ko")) eqn:E2; [|intros []].
    apply pystr_eqb_eq in E2. subst lang. intros [<-|[]]. reflexivity.
Qed.

Lemma installs_every_available_pair_witness :
  is_pair_installed sample_lang_code sample_translations_to sample_trans_to_lang
                    (PyStr.lit "ko") (PyStr.lit "en")
                    [PyStr.lit "en"; PyStr.lit "ko"]
  = false
  /\ downloads (snd (install_required_language_pairs
                       sample_lang_code sample_translations_to sample_trans_to_lang
                       (fun p : pystr * pystr => fst p)
                       (fun p : pystr * pystr => snd p) korean_catalog))
     = [(PyStr.lit "ko", PyStr.lit "en"); (PyStr.lit "en", PyStr.lit "ko");
        (PyStr.lit "de", PyStr.lit "en")].
Proof.
  destruct (@installs_every_available_pair
              pystr (pystr * pystr) (pystr * pystr) nat
              sample_lang_code sample_translations_to sample_trans_to_lang
              (fun p => fst p) (fun p => snd p) korean_catalog
              [(PyStr.lit "de", PyStr.lit "en"); (PyStr.lit "ko", PyStr.lit "en");
               (PyStr.lit "en", PyStr.lit "ko")]
              sample_translations_into eq_refl eq_refl
              (fun pkg => ex_intro _ (List.length (fst pkg)) eq_refl)
              (fun _ => eq_refl)
              (fun _ => ex_intro _ [PyStr.lit "en"; PyStr.lit "ko"] eq_refl))
    as (Hn & _ & Hd).
  split.
  - apply Hn. discriminate.
  - rewrite Hd. reflexivity.
Defined.
